(** * PM2.5 stream consumer: rolling mean alerts and the sensor map

    A shallow embedding of the consumer notebook
    [src/step_3_consumer_app.ipynb]: the table [df] of received readings,
    [event_notification] (the 3-reading rolling mean per location and the
    threshold check), the consumption loop that decodes messages and appends
    them to [df], and the cells that split the sensors into active and
    inactive markers.

    Modelling conventions.
    - A float is an exact rational, an infinity or NaN ([fval]); binary
      rounding and overflow are left out.
    - The DataFrame is the list of its rows in index order; its columns are
      typed: [lat] and [lon] are numbers, [day] and [boxId] strings, [value]
      a float.
    - An exception is a value of [exn]; code that may raise returns a
      [result]. *)

From Stdlib Require Import String Ascii.
From Stdlib Require Import List Bool Arith Lia ZArith QArith Qround Qabs.
From Stdlib Require Import Permutation Lqa.
From Stdlib Require OrderedTypeEx.
Import ListNotations.

Local Open Scope Q_scope.

(** ** Exceptions *)

Inductive exn : Type :=
| IndexError
| KeyError
| TypeError
| ValueError
| AttributeError
| JSONDecodeError
| KafkaException
| KeyboardInterrupt.

Inductive result (A : Type) : Type :=
| Ok (a : A)
| Raise (e : exn).

Arguments Ok {A} a.
Arguments Raise {A} e.

Definition bind {A B : Type} (m : result A) (k : A -> result B) : result B :=
  match m with
  | Ok a => k a
  | Raise e => Raise e
  end.

Notation "x <- m ;; k" := (bind m (fun x => k))
  (at level 61, m at next level, right associativity).

(** ** Floats and rows *)

Inductive fval : Type :=
| Num (q : Q)
| Inf (negative : bool)
| NaN.

(** [math.isnan] *)
Definition isnan (x : fval) : bool :=
  match x with
  | NaN => true
  | Num _ | Inf _ => false
  end.

(** [x > t] on floats: false when [x] is NaN. *)
Definition fgtb (x : fval) (t : Q) : bool :=
  match x with
  | Num q => negb (Qle_bool q t)
  | Inf negative => negb negative
  | NaN => false
  end.

(** Nearest integer, ties to the even one. *)
Definition round_half_even (x : Q) : Z :=
  let f := Qfloor x in
  match Qcompare (x - inject_Z f) (1 # 2) with
  | Lt => f
  | Gt => (f + 1)%Z
  | Eq => if Z.even f then f else (f + 1)%Z
  end.

(** [round(x, 2)], taken on the exact value. The float the code rounds is
    the nearest binary double, so at a decimal tie such as 1.015 the code
    may print the other neighbour (1.01); only statements that do not
    depend on the rounded digits are made about it. *)
Definition round2 (x : fval) : fval :=
  match x with
  | Num q => Num (inject_Z (round_half_even (q * 100)) / 100)
  | Inf negative => Inf negative
  | NaN => NaN
  end.

(** One row of [df], columns ['lat','lon','value','day','boxId']. *)
Record row : Type := mkRow {
  lat : Q;
  lon : Q;
  value : fval;
  day : string;
  boxId : string
}.

Definition DataFrame : Type := list row.

(** ** groupby(['lat','lon']) *)

Definition LocationKey : Type := (Q * Q)%type.

Definition key_of (r : row) : LocationKey := (lat r, lon r).

Definition key_eqb (k1 k2 : LocationKey) : bool :=
  Qeq_bool (fst k1) (fst k2) && Qeq_bool (snd k1) (snd k2).

(** Order of the groups: by [lat], then by [lon]. *)
Definition key_leb (k1 k2 : LocationKey) : bool :=
  if Qeq_bool (fst k1) (fst k2)
  then Qle_bool (snd k1) (snd k2)
  else Qle_bool (fst k1) (fst k2).

(** The distinct keys, each at its first occurrence. *)
Fixpoint unique (ks : list LocationKey) : list LocationKey :=
  match ks with
  | [] => []
  | k :: t => k :: filter (fun k' => negb (key_eqb k k')) (unique t)
  end.

Fixpoint insert_key (k : LocationKey) (l : list LocationKey) : list LocationKey :=
  match l with
  | [] => [k]
  | k' :: t => if key_leb k k' then k :: l else k' :: insert_key k t
  end.

Fixpoint sort_keys (l : list LocationKey) : list LocationKey :=
  match l with
  | [] => []
  | k :: t => insert_key k (sort_keys t)
  end.

(** The rows of [df] with their index labels. *)
Definition indexed (df : DataFrame) : list (nat * row) :=
  combine (seq 0 (length df)) df.

(** One group per distinct key, groups sorted by key; a group keeps its
    rows in the order of [df]. *)
Definition groupby (df : DataFrame) : list (LocationKey * list (nat * row)) :=
  map (fun k => (k, filter (fun ir => key_eqb (key_of (snd ir)) k) (indexed df)))
      (sort_keys (unique (map key_of df))).

(** ** rolling(w).mean() *)

Fixpoint fsum (l : list fval) : option Q :=
  match l with
  | [] => Some 0
  | Num q :: t =>
      match fsum t with
      | Some s => Some (q + s)
      | None => None
      end
  | Inf _ :: _ => None
  | NaN :: _ => None
  end.

(** Mean of the window that ends at the last element of [pre]: NaN while
    fewer than [w] observations exist or when the window holds a NaN.
    [rolling] reads an infinite value as NaN, so a window that holds one
    has no mean either. *)
Definition window_mean (w : nat) (pre : list fval) : fval :=
  if (length pre <? w)%nat then NaN
  else match fsum (skipn (length pre - w) pre) with
       | Some s => Num (Qred (s / inject_Z (Z.of_nat w)))
       | None => NaN
       end.

Definition rolling_mean (w : nat) (xs : list fval) : list fval :=
  map (fun i => window_mean w (firstn (S i) xs)) (seq 0 (length xs)).

(** A row of [rolling_average] after [reset_index()]: the new index label,
    the group key, the label of the row in [df] and the rolling mean. *)
Record ra_row : Type := mkRa {
  ra_index : nat;
  ra_lat : Q;
  ra_lon : Q;
  level_2 : nat;
  ra_value : fval
}.

(** The rolling means of one group, each with the group key and the label
    of its row in [df]. *)
Definition rolling_group (g : LocationKey * list (nat * row))
  : list (LocationKey * nat * fval) :=
  map (fun iv => (fst g, fst iv, snd iv))
      (combine (map fst (snd g))
               (rolling_mean 3 (map (fun ir => value (snd ir)) (snd g)))).

Definition reset_index (l : list (LocationKey * nat * fval)) : list ra_row :=
  map (fun ir => mkRa (fst ir) (fst (fst (fst (snd ir)))) (snd (fst (fst (snd ir))))
                      (snd (fst (snd ir))) (snd (snd ir)))
      (combine (seq 0 (length l)) l).

(** [df.groupby(['lat','lon']).rolling(3)['value'].mean().reset_index()] *)
Definition rolling_average (df : DataFrame) : list ra_row :=
  reset_index (flat_map rolling_group (groupby df)).

(** [dropna]: only the [value] column can hold NaN. *)
Definition dropna (l : list ra_row) : list ra_row :=
  filter (fun r => negb (isnan (ra_value r))) l.

(** ** event_notification *)

(** [df.iloc[df.shape[0] - 1,:]] *)
Definition iloc_last (df : DataFrame) : result row :=
  match nth_error df (length df - 1) with
  | Some r => Ok r
  | None => Raise IndexError
  end.

(** [frame.index[-1]] *)
Definition index_last (l : list ra_row) : result nat :=
  match rev l with
  | r :: _ => Ok (ra_index r)
  | [] => Raise IndexError
  end.

(** [frame.loc[idx, 'value']] *)
Definition loc_value (l : list ra_row) (idx : nat) : result fval :=
  match find (fun r => (ra_index r =? idx)%nat) l with
  | Some r => Ok (ra_value r)
  | None => Raise KeyError
  end.

Definition same_location (la lo : Q) (r : ra_row) : bool :=
  Qeq_bool (ra_lat r) la && Qeq_bool (ra_lon r) lo.

(** The value bound to [pm_value] in the [try] block. *)
Definition pm_value (df : DataFrame) : result fval :=
  let rolling_average := dropna (rolling_average df) in
  cur <- iloc_last df ;;
  let current_lat := lat cur in
  let current_lon := lon cur in
  rolling_average_index <-
    index_last (filter (same_location current_lat current_lon) rolling_average) ;;
  loc_value rolling_average rolling_average_index.

(** What is printed: the two kinds of line, with the fields they show. *)
Inductive notification : Type :=
| Warning (sensebox timestamp : string) (pm : fval)
| Safe (sensebox timestamp : string).

Definition warning_event_response (timestamp : string) (pm : fval) (sensebox : string)
  : notification :=
  Warning sensebox timestamp pm.

(** The body of the [try] block. *)
Definition event_notification_try (df : DataFrame) (pm_threshold : Q)
  : result notification :=
  pm <- pm_value df ;;
  last_row <- iloc_last df ;;
  let timestamp := day last_row in
  let sensebox := boxId last_row in
  if fgtb pm pm_threshold
  then Ok (warning_event_response timestamp (round2 pm) sensebox)
  else Ok (Safe sensebox timestamp).

(** [event_notification]: the line printed, if any; every exception of the
    body is swallowed by the bare [except]. *)
Definition event_notification (df : DataFrame) (pm_threshold : Q)
  : option notification :=
  match event_notification_try df pm_threshold with
  | Ok n => Some n
  | Raise _ => None
  end.

Definition fired (n : notification) : bool :=
  match n with
  | Warning _ _ _ => true
  | Safe _ _ => false
  end.


(** ** Decoding a message *)

#[local] Unset Elimination Schemes.

(** What [json.loads] returns. Objects keep their entries in order;
    non-finite number literals are left out. *)
Inductive json : Type :=
| JNull
| JBool (b : bool)
| JNum (q : Q)
| JStr (s : string)
| JArr (items : list json)
| JObj (entries : list (string * json)).
#[local] Set Elimination Schemes.

(** [list(input.keys())] *)
Definition keys (input : json) : result (list string) :=
  match input with
  | JObj entries => Ok (map fst entries)
  | _ => Raise AttributeError
  end.

(** [l[0]] on a Python list *)
Definition first {A : Type} (l : list A) : result A :=
  match l with
  | x :: _ => Ok x
  | [] => Raise IndexError
  end.

(** [input[key]] with a string key *)
Definition getitem (input : json) (k : string) : result json :=
  match input with
  | JObj entries =>
      match find (fun e => String.eqb (fst e) k) entries with
      | Some e => Ok (snd e)
      | None => Raise KeyError
      end
  | _ => Raise TypeError
  end.

(** [v[i]] with an integer index: lists and strings can be indexed. *)
Definition item (v : json) (i : nat) : result json :=
  match v with
  | JArr items =>
      match nth_error items i with
      | Some x => Ok x
      | None => Raise IndexError
      end
  | JStr s =>
      match String.get i s with
      | Some c => Ok (JStr (String c EmptyString))
      | None => Raise IndexError
      end
  | JObj _ => Raise KeyError
  | _ => Raise TypeError
  end.

(** The temporary dictionary [stream]. *)
Module Stream.
Record t : Type := mk {
  lat : json;
  lon : json;
  day : json;
  value : fval;
  boxId : json
}.
End Stream.

(** The columns of [df] are typed: a [stream] becomes a row when its
    coordinates are numbers and its day and box id strings. Other
    dictionaries are outside the table model. *)
Definition row_of_stream (s : Stream.t) : option row :=
  match Stream.lat s, Stream.lon s, Stream.day s, Stream.boxId s with
  | JNum la, JNum lo, JStr d, JStr b => Some (mkRow la lo (Stream.value s) d b)
  | _, _, _, _ => None
  end.

(** [pm_threshold = 20] *)
Definition pm_threshold : Q := 20.

(** The two statements that follow decoding: [df = df.append(stream,
    ignore_index = True)] and [event_notification(df, pm_threshold)]. *)
Definition ingest (df : DataFrame) (threshold : Q) (r : row)
  : DataFrame * option notification :=
  let df' := df ++ [r] in
  (df', event_notification df' threshold).

(** ** The consumption loop *)

Inductive kafka_error : Type :=
| PARTITION_EOF
| UNKNOWN_TOPIC_OR_PART
| OtherKafkaError.

(** What [consumer.poll] hands over: a message with an error, or a message
    with a value, given here by what [json.loads(msg.value())] makes of it
    ([None] when [json.loads] raises). *)
Inductive message : Type :=
| ErrorMessage (e : kafka_error)
| ValueMessage (body : option json).

(** One call of [consumer.poll]; [Interrupt] is a [KeyboardInterrupt]
    arriving during the call. A poll that times out is the end of the list. *)
Inductive poll_event : Type :=
| Polled (msg : message)
| Interrupt.

Inductive log_line : Type :=
| ReachedEnd
| TopicUnknown.

Record state : Type := mkState {
  df : DataFrame;
  stdout : list notification;
  stderr : list log_line;
  commits : nat;
  closed : bool
}.

Definition initial : state := mkState [] [] [] 0 false.

(** How the [while] loop ends. [OutOfModel] marks a run that appends a
    dictionary the typed table cannot hold. *)
Inductive ending : Type :=
| Break
| Raised (e : exn)
| OutOfModel.

(** How the cell ends: normally, or with an exception that nothing
    catches. *)
Inductive cell_result : Type :=
| Completed
| Uncaught (e : exn)
| Unknown.

Definition write_stderr (l : log_line) (st : state) : state :=
  mkState (df st) (stdout st) (stderr st ++ [l]) (commits st) (closed st).

(** [consumer.commit()] *)
Definition commit (st : state) : state :=
  mkState (df st) (stdout st) (stderr st) (S (commits st)) (closed st).

(** [consumer.close()] *)
Definition close (st : state) : state :=
  mkState (df st) (stdout st) (stderr st) (commits st) true.

Definition print_line (o : option notification) (out : list notification)
  : list notification :=
  match o with
  | Some n => out ++ [n]
  | None => out
  end.

Section Consumer.
(** The builtin [float] applied to a string: the float it denotes, or
    [None] for [ValueError]. *)
Variable float : string -> option fval.

Definition float_of_key (k : string) : result fval :=
  match float k with
  | Some v => Ok v
  | None => Raise ValueError
  end.

(** From the decoded message to the dictionary [stream]. *)
Definition parse (input : json) : result Stream.t :=
  ks <- keys input ;;
  key <- first ks ;;
  v0 <- getitem input key ;;
  la <- item v0 0 ;;
  v1 <- getitem input key ;;
  lo <- item v1 1 ;;
  v2 <- getitem input key ;;
  d <- item v2 2 ;;
  v <- float_of_key key ;;
  v3 <- getitem input key ;;
  b <- item v3 3 ;;
  Ok (Stream.mk la lo d v b).

(** [json.loads(msg.value())] followed by the construction of [stream]. *)
Definition decode (body : option json) : result Stream.t :=
  match body with
  | Some input => parse input
  | None => Raise JSONDecodeError
  end.

(** [while running: ...] over the successive results of [poll]. *)
Fixpoint while_running (threshold : Q) (polls : list poll_event) (st : state)
  : state * ending :=
  match polls with
  | [] => (st, Break)
  | Interrupt :: _ => (st, Raised KeyboardInterrupt)
  | Polled (ErrorMessage PARTITION_EOF) :: rest =>
      while_running threshold rest (commit (write_stderr ReachedEnd st))
  | Polled (ErrorMessage UNKNOWN_TOPIC_OR_PART) :: rest =>
      while_running threshold rest (commit (write_stderr TopicUnknown st))
  | Polled (ErrorMessage OtherKafkaError) :: _ => (st, Raised KafkaException)
  | Polled (ValueMessage body) :: rest =>
      match decode body with
      | Raise e => (st, Raised e)
      | Ok stream =>
          match row_of_stream stream with
          | None => (st, OutOfModel)
          | Some r =>
              let (df', out) := ingest (df st) threshold r in
              while_running threshold rest
                (commit (mkState df' (print_line out (stdout st)) (stderr st)
                                 (commits st) (closed st)))
          end
      end
  end.

(** The whole cell: [try: while ... except KeyboardInterrupt: pass
    finally: consumer.close()]. *)
Definition consume (threshold : Q) (polls : list poll_event) (st : state)
  : state * cell_result :=
  let (st', e) := while_running threshold polls st in
  match e with
  | Break => (close st', Completed)
  | Raised KeyboardInterrupt => (close st', Completed)
  | Raised x => (close st', Uncaught x)
  | OutOfModel => (close st', Unknown)
  end.
End Consumer.

(** A reader of plain decimal literals ([12.75], [-3], [nan]) as exact
    rationals, used to run examples; on these literals it agrees with
    [float]. It knows no exponents, signs [+], blanks or infinities. *)
Definition digit (c : ascii) : option Z :=
  let n := Z.of_nat (nat_of_ascii c) in
  if ((48 <=? n) && (n <=? 57))%Z then Some (n - 48)%Z else None.

Fixpoint scan (s : string) (num : Z) (scale : positive) (dot digits : bool)
  : option Q :=
  match s with
  | EmptyString => if digits then Some (num # scale) else None
  | String c t =>
      if Ascii.eqb c "."%char
      then if dot then None else scan t num scale true digits
      else match digit c with
           | Some d =>
               scan t (10 * num + d)%Z (if dot then (10 * scale)%positive else scale)
                    dot true
           | None => None
           end
  end.

Definition decimal_float (s : string) : option fval :=
  if String.eqb s "nan" then Some NaN
  else match s with
       | String "-"%char t =>
           match scan t 0 1 false false with
           | Some q => Some (Num (- q))
           | None => None
           end
       | _ =>
           match scan s 0 1 false false with
           | Some q => Some (Num q)
           | None => None
           end
       end.

(** ** The sensor map *)

Definition point : Type := (Q * Q)%type.

(** [gpd.points_from_xy(df.lon, df.lat)]: x is the longitude. *)
Definition point_of (r : row) : point := (lon r, lat r).

(** Two geometries are duplicates when their coordinates are equal as
    numbers. The rationals have one zero: a frame holding both 0.0 and
    -0.0, which the code keeps apart, is outside this model. *)
Definition point_eqb (p q : point) : bool :=
  Qeq_bool (fst p) (fst q) && Qeq_bool (snd p) (snd q).

(** A row of [gdf]: [lon] and [lat] replaced by [geometry], and the column
    [valid] added. *)
Module Gdf.
Record t : Type := mk {
  value : fval;
  day : string;
  boxId : string;
  geometry : point;
  valid : bool
}.
End Gdf.

Definition GeoDataFrame : Type := list Gdf.t.

(** [gdf] after the cell that adds [valid]. *)
Definition to_gdf (df : DataFrame) : GeoDataFrame :=
  map (fun r => Gdf.mk (value r) (day r) (boxId r) (point_of r)
                       (if isnan (value r) then false else true))
      df.

Definition valid_boxes (gdf : GeoDataFrame) : GeoDataFrame :=
  filter Gdf.valid gdf.

Definition max_string (a b : string) : string :=
  if String.leb a b then b else a.

(** [Series.max()] of a column of strings; [None] is the NaN of an empty
    column. *)
Definition series_max (l : list string) : option string :=
  match l with
  | [] => None
  | x :: t => Some (fold_left max_string t x)
  end.

Definition recent_date (gdf : GeoDataFrame) : option string :=
  series_max (map Gdf.day (valid_boxes gdf)).

(** [drop_duplicates(subset=[c])]: the first row of every value of the
    column is kept, in order. *)
Fixpoint drop_duplicates {A : Type} (same : A -> A -> bool) (l : list A) : list A :=
  match l with
  | [] => []
  | x :: t => x :: filter (fun y => negb (same x y)) (drop_duplicates same t)
  end.

Definition on_day (d : option string) (g : Gdf.t) : bool :=
  match d with
  | Some s => String.eqb (Gdf.day g) s
  | None => false
  end.

(** The [geometry] column of [active_boxes]. *)
Definition active_boxes (gdf : GeoDataFrame) : list point :=
  map Gdf.geometry
      (drop_duplicates (fun a b => String.eqb (Gdf.boxId a) (Gdf.boxId b))
                       (filter (on_day (recent_date gdf)) gdf)).

(** The [geometry] column of [inactive_boxes]. *)
Definition inactive_boxes (gdf : GeoDataFrame) : list point :=
  map Gdf.geometry
      (drop_duplicates (fun a b => point_eqb (Gdf.geometry a) (Gdf.geometry b))
                       (filter (fun g => negb (Gdf.valid g)) gdf)).

(** [Marker(location=(coords.y, coords.x), ...)] for every geometry. *)
Definition markers (geometries : list point) : list (Q * Q) :=
  map (fun coords => (snd coords, fst coords)) geometries.

Definition active_markers (df : DataFrame) : list (Q * Q) :=
  markers (active_boxes (to_gdf df)).

Definition inactive_markers (df : DataFrame) : list (Q * Q) :=
  markers (inactive_boxes (to_gdf df)).

(** A sensor location is on the map layer [ms]. *)
Definition shown (k : LocationKey) (ms : list (Q * Q)) : bool :=
  existsb (key_eqb k) ms.
(** * Definitions used in the statements *)

(** The readings of one location, in arrival order. *)
Definition history (k : LocationKey) (df : DataFrame) : list row :=
  filter (fun r => key_eqb (key_of r) k) df.

Definition notnan (x : fval) : bool := negb (isnan x).

(** The last rolling mean that is not NaN; [IndexError] when there is none. *)
Definition last_valid (l : list fval) : result fval :=
  match rev (filter notnan l) with
  | v :: _ => Ok v
  | [] => Raise IndexError
  end.

(** Number of keys of [l] equal to [c]. *)
Fixpoint count_key (c : LocationKey) (l : list LocationKey) : nat :=
  match l with
  | [] => 0
  | k :: t => (if key_eqb k c then 1 else 0) + count_key c t
  end.

(** A row of [rolling_average] without its index label. *)
Definition unlabel (r : ra_row) : LocationKey * nat * fval :=
  ((ra_lat r, ra_lon r), level_2 r, ra_value r).

(** ** Example data *)

(** The first sensor of the notebook's output and its first five readings. *)
Definition box1 : string := "5750220bed08f9680c6b4154".

Definition reading1 (v : fval) (d : string) : row :=
  mkRow 51.956168 7.651169 v d box1.

Definition notebook_rows : DataFrame :=
  [ reading1 (Num 4.190406) "2022-01-21T13:00:00.000Z";
    reading1 (Num 6.322550) "2022-01-22T14:00:00.000Z";
    reading1 (Num 12.757133) "2022-01-23T15:00:00.000Z";
    reading1 (Num 26.606711) "2022-01-24T16:00:00.000Z";
    reading1 (Num 38.289267) "2022-01-25T17:00:00.000Z" ].

(** A reading without a value that follows them. *)
Definition nan_reading : row := reading1 NaN "2022-01-26T18:00:00.000Z".

(** The three most recent values of a location after [r] is appended. *)
Definition recent_values (df : DataFrame) (r : row) : list fval :=
  let h := map value (history (key_of r) (df ++ [r])) in
  skipn (length h - 3) h.

(** The message that carries a reading of the first sensor: the value is
    the key. *)
Definition message1 (k d : string) : json :=
  JObj [(k, JArr [JNum 51.956168; JNum 7.651169; JStr d; JStr box1])].

Definition good_message : json := message1 "12.757133" "2022-01-23T15:00:00.000Z".

(** The polls that deliver the five readings, and the one without a value. *)
Definition notebook_polls : list poll_event :=
  map (fun kd => Polled (ValueMessage (Some (message1 (fst kd) (snd kd)))))
      [ ("4.190406", "2022-01-21T13:00:00.000Z");
        ("6.322550", "2022-01-22T14:00:00.000Z");
        ("12.757133", "2022-01-23T15:00:00.000Z");
        ("26.606711", "2022-01-24T16:00:00.000Z");
        ("38.289267", "2022-01-25T17:00:00.000Z") ]%string.

Definition nan_poll : poll_event :=
  Polled (ValueMessage (Some (message1 "nan" "2022-01-26T18:00:00.000Z"))).

(** The second sensor of the notebook's output. *)
Definition box2 : string := "591f578c51d34600116a8ea5".

Definition reading2 (v : fval) (d : string) : row :=
  mkRow 51.964220 7.645220 v d box2.

(** The first sensor reports on the 21st only, the second on the 22nd. *)
Definition two_sensors : DataFrame :=
  [ reading1 (Num 4.190406) "2022-01-21T13:00:00.000Z";
    reading2 (Num 26.25) "2022-01-22T14:00:00.000Z" ].

(** On the 22nd the first sensor sends a reading without a value. *)
Definition nan_on_recent_date : DataFrame :=
  [ reading1 (Num 4.190406) "2022-01-21T13:00:00.000Z";
    reading2 (Num 26.25) "2022-01-22T14:00:00.000Z";
    reading1 NaN "2022-01-22T14:00:00.000Z" ].

(** The exceptions that decoding a message can raise. *)
Definition decode_error (e : exn) : Prop :=
  e = JSONDecodeError \/ e = AttributeError \/ e = IndexError
  \/ e = KeyError \/ e = TypeError \/ e = ValueError.

(** ** Definitions for the further properties *)

(** The latest three consecutive numbers of a sequence given newest first:
    [(a, b, c)] with [c] the newest. *)
Fixpoint latest_triple (newest_first : list fval) : option (Q * Q * Q) :=
  match newest_first with
  | [] => None
  | x :: t =>
      match x, t with
      | Num c, Num b :: Num a :: _ => Some (a, b, c)
      | _, _ => latest_triple t
      end
  end.

(** The arithmetic mean of three numbers, in lowest terms. *)
Definition mean3 (a b c : Q) : Q := Qred ((a + b + c) / 3).

(** The line [event_notification] prints for a mean [m]. *)
Definition line_for (r : row) (threshold m : Q) : notification :=
  if Qle_bool m threshold
  then Safe (boxId r) (day r)
  else Warning (boxId r) (day r) (round2 (Num m)).


Definition line_day (n : notification) : string :=
  match n with
  | Warning _ timestamp _ => timestamp
  | Safe _ timestamp => timestamp
  end.

(** Three readings of 30, one without a value, then two readings of 1, all
    of the first sensor. *)
Definition high_nan_low : DataFrame :=
  [ reading1 (Num 30) "2022-01-21T13:00:00.000Z";
    reading1 (Num 30) "2022-01-22T14:00:00.000Z";
    reading1 (Num 30) "2022-01-23T15:00:00.000Z";
    reading1 NaN "2022-01-24T16:00:00.000Z";
    reading1 (Num 1) "2022-01-25T17:00:00.000Z";
    reading1 (Num 1) "2022-01-26T18:00:00.000Z" ].

(** The rows a poll adds to the table: one for a value message that decodes
    to a typed row, none otherwise. *)
Definition received (float : string -> option fval) (p : poll_event) : list row :=
  match p with
  | Polled (ValueMessage body) =>
      match decode float body with
      | Ok s =>
          match row_of_stream s with
          | Some r => [r]
          | None => []
          end
      | Raise _ => []
      end
  | _ => []
  end.

(** The line a poll writes to [sys.stderr]. *)
Definition logged (p : poll_event) : list log_line :=
  match p with
  | Polled (ErrorMessage PARTITION_EOF) => [ReachedEnd]
  | Polled (ErrorMessage UNKNOWN_TOPIC_OR_PART) => [TopicUnknown]
  | _ => []
  end.

(** What is printed while [rows] are ingested one after the other into
    [tbl]. *)
Fixpoint outputs (threshold : Q) (tbl : DataFrame) (rows : list row)
  : list notification :=
  match rows with
  | [] => []
  | r :: t =>
      print_line (event_notification (tbl ++ [r]) threshold) []
      ++ outputs threshold (tbl ++ [r]) t
  end.

(** The row of [gdf] made from a row of [df]. *)
Definition gdf_row (r : row) : Gdf.t :=
  Gdf.mk (value r) (day r) (boxId r) (point_of r)
         (if isnan (value r) then false else true).

(** [active_boxes] after [drop_duplicates(subset=['boxId'])], before the
    column [geometry] is selected. *)
Definition active_frame (gdf : GeoDataFrame) : GeoDataFrame :=
  drop_duplicates (fun a b => String.eqb (Gdf.boxId a) (Gdf.boxId b))
                  (filter (on_day (recent_date gdf)) gdf).

(** The row [r] is dated at the most recent date of the valid rows. *)
Definition recent (df : DataFrame) (r : row) : Prop :=
  recent_date (to_gdf df) = Some (day r).
(** * Lemmas on lists *)

Section ListFacts.
Context {A B : Type}.

Lemma map_filter_comm (f : A -> B) (p : B -> bool) (l : list A) :
  map f (filter (fun a => p (f a)) l) = filter p (map f l).
Proof.
  induction l as [|a l IH]; simpl; [reflexivity|].
  destruct (p (f a)); simpl; now rewrite IH.
Qed.

Lemma filter_filter_comm (p q : A -> bool) (l : list A) :
  filter p (filter q l) = filter q (filter p l).
Proof.
  induction l as [|a l IH]; simpl; [reflexivity|].
  destruct (p a) eqn:Hp, (q a) eqn:Hq; simpl; rewrite ?Hp, ?Hq, IH; reflexivity.
Qed.

Lemma map_snd_combine_eq (s : list A) (l : list B) :
  length s = length l -> map snd (combine s l) = l.
Proof.
  revert l; induction s as [|a s IH]; intros [|b l] H; simpl in *;
    try discriminate; [reflexivity|].
  f_equal; apply IH; lia.
Qed.

Lemma map_fst_combine_eq (s : list A) (l : list B) :
  length s = length l -> map fst (combine s l) = s.
Proof.
  revert l; induction s as [|a s IH]; intros [|b l] H; simpl in *;
    try discriminate; [reflexivity|].
  f_equal; apply IH; lia.
Qed.

Lemma filter_flat_map (f : A -> list B) (p : B -> bool) (l : list A) :
  filter p (flat_map f l) = flat_map (fun a => filter p (f a)) l.
Proof.
  induction l as [|a l IH]; simpl; [reflexivity|].
  now rewrite filter_app, IH.
Qed.

Lemma map_flat_map (f : A -> list B) {C : Type} (g : B -> C) (l : list A) :
  map g (flat_map f l) = flat_map (fun a => map g (f a)) l.
Proof.
  induction l as [|a l IH]; simpl; [reflexivity|].
  now rewrite map_app, IH.
Qed.

Lemma filter_all_true (p : A -> bool) (l : list A) :
  (forall a, In a l -> p a = true) -> filter p l = l.
Proof.
  induction l as [|a l IH]; simpl; intros H; [reflexivity|].
  rewrite (H a (or_introl eq_refl)), IH; auto.
Qed.

Lemma filter_all_false (p : A -> bool) (l : list A) :
  (forall a, In a l -> p a = false) -> filter p l = [].
Proof.
  induction l as [|a l IH]; simpl; intros H; [reflexivity|].
  rewrite (H a (or_introl eq_refl)), IH; auto.
Qed.

(** In a list whose labels are all different, looking a member up by its
    label finds that member. *)
Lemma find_by_label (lbl : A -> nat) (l : list A) (x : A) :
  NoDup (map lbl l) -> In x l ->
  find (fun y => (lbl y =? lbl x)%nat) l = Some x.
Proof.
  induction l as [|a l IH]; simpl; intros Hnd Hin; [contradiction|].
  inversion Hnd as [|? ? Hnotin Hnd']; subst.
  destruct Hin as [->|Hin].
  - now rewrite Nat.eqb_refl.
  - destruct (Nat.eqb_spec (lbl a) (lbl x)) as [E|_]; [|auto].
    exfalso; apply Hnotin; rewrite E; now apply in_map.
Qed.

Lemma NoDup_map_filter (lbl : A -> nat) (p : A -> bool) (l : list A) :
  NoDup (map lbl l) -> NoDup (map lbl (filter p l)).
Proof.
  induction l as [|a l IH]; simpl; intros Hnd; [constructor|].
  inversion Hnd as [|? ? Hnotin Hnd']; subst.
  destruct (p a); simpl; auto.
  constructor; auto.
  intros Hin; apply Hnotin.
  apply in_map_iff in Hin as (y & Hy & Hin).
  apply filter_In in Hin as [Hin _].
  rewrite <- Hy; now apply in_map.
Qed.
End ListFacts.

(** * Keys and groups *)

Lemma key_eqb_refl (k : LocationKey) : key_eqb k k = true.
Proof.
  unfold key_eqb; apply andb_true_iff; split; apply Qeq_bool_iff; reflexivity.
Qed.

Lemma key_eqb_sym (k1 k2 : LocationKey) : key_eqb k1 k2 = key_eqb k2 k1.
Proof.
  unfold key_eqb; f_equal; apply eq_true_iff_eq;
    rewrite !Qeq_bool_iff; split; intros H; now symmetry.
Qed.

Lemma key_eqb_trans (k1 k2 k3 : LocationKey) :
  key_eqb k1 k2 = true -> key_eqb k2 k3 = true -> key_eqb k1 k3 = true.
Proof.
  unfold key_eqb; rewrite !andb_true_iff, !Qeq_bool_iff.
  intros [H1 H2] [H3 H4]; split; etransitivity; eauto.
Qed.

(** Equal keys select the same rows. *)
Lemma key_eqb_compat (k1 k2 k : LocationKey) :
  key_eqb k1 k2 = true -> key_eqb k k1 = key_eqb k k2.
Proof.
  intros H; apply eq_true_iff_eq; split; intros H'.
  - eapply key_eqb_trans; eauto.
  - eapply key_eqb_trans; eauto. now rewrite key_eqb_sym.
Qed.

Lemma history_compat (k1 k2 : LocationKey) (df : DataFrame) :
  key_eqb k1 k2 = true -> history k1 df = history k2 df.
Proof.
  intros H; unfold history; apply filter_ext; intros r.
  now apply key_eqb_compat.
Qed.


Lemma count_key_insert (c k : LocationKey) (l : list LocationKey) :
  count_key c (insert_key k l) = count_key c (k :: l).
Proof.
  induction l as [|k' l IH]; simpl; [reflexivity|].
  destruct (key_leb k k'); simpl; [reflexivity|].
  simpl in IH; rewrite IH; lia.
Qed.

Lemma count_key_sort (c : LocationKey) (l : list LocationKey) :
  count_key c (sort_keys l) = count_key c l.
Proof.
  induction l as [|k l IH]; simpl; [reflexivity|].
  now rewrite count_key_insert; simpl; rewrite IH.
Qed.

Lemma count_key_filter_other (c k : LocationKey) (l : list LocationKey) :
  key_eqb k c = false ->
  count_key c (filter (fun k' => negb (key_eqb k k')) l) = count_key c l.
Proof.
  intros Hk; induction l as [|k' l IH]; simpl; [reflexivity|].
  destruct (key_eqb k k') eqn:E; simpl.
  - assert (key_eqb k' c = false) as ->.
    { destruct (key_eqb k' c) eqn:E'; [|reflexivity].
      rewrite (key_eqb_trans _ _ _ E E') in Hk; discriminate. }
    exact IH.
  - now rewrite IH.
Qed.

Lemma count_key_filter_same (c k : LocationKey) (l : list LocationKey) :
  key_eqb k c = true ->
  count_key c (filter (fun k' => negb (key_eqb k k')) l) = 0%nat.
Proof.
  intros Hk; induction l as [|k' l IH]; simpl; [reflexivity|].
  destruct (key_eqb k k') eqn:E; simpl; [exact IH|].
  assert (key_eqb k' c = false) as ->.
  { destruct (key_eqb k' c) eqn:E'; [|reflexivity].
    rewrite key_eqb_sym in E'.
    rewrite (key_eqb_trans _ _ _ Hk E') in E; discriminate. }
  exact IH.
Qed.

(** [unique] keeps exactly one copy of every key that occurs. *)
Lemma count_key_unique (c : LocationKey) (l : list LocationKey) :
  count_key c (unique l) = if existsb (fun k => key_eqb k c) l then 1%nat else 0%nat.
Proof.
  induction l as [|k l IH]; simpl; [reflexivity|].
  destruct (key_eqb k c) eqn:E; simpl.
  - now rewrite count_key_filter_same.
  - now rewrite count_key_filter_other.
Qed.

Lemma flat_map_count_zero {B : Type} (c : LocationKey) (R : list B) (l : list LocationKey) :
  count_key c l = 0%nat ->
  flat_map (fun k => if key_eqb k c then R else []) l = [].
Proof.
  induction l as [|k l IH]; simpl; [reflexivity|].
  destruct (key_eqb k c); simpl; [discriminate|]. exact IH.
Qed.

Lemma flat_map_count_one {B : Type} (c : LocationKey) (R : list B) (l : list LocationKey) :
  count_key c l = 1%nat ->
  flat_map (fun k => if key_eqb k c then R else []) l = R.
Proof.
  induction l as [|k l IH]; simpl; [discriminate|].
  destruct (key_eqb k c); simpl.
  - intros H. rewrite flat_map_count_zero by lia. apply app_nil_r.
  - exact IH.
Qed.

(** * The rolling mean *)

Lemma rolling_mean_length (w : nat) (xs : list fval) :
  length (rolling_mean w xs) = length xs.
Proof. unfold rolling_mean; now rewrite length_map, length_seq. Qed.

Lemma rolling_mean_snoc (w : nat) (xs : list fval) (x : fval) :
  rolling_mean w (xs ++ [x]) = rolling_mean w xs ++ [window_mean w (xs ++ [x])].
Proof.
  unfold rolling_mean.
  rewrite length_app; change (length [x]) with 1%nat.
  rewrite Nat.add_1_r, seq_S, map_app.
  f_equal.
  - apply map_ext_in; intros i Hi; apply in_seq in Hi.
    rewrite firstn_app.
    replace (S i - length xs)%nat with 0%nat by lia.
    now rewrite firstn_O, app_nil_r.
  - cbn [map Nat.add]. now rewrite firstn_all2 by (rewrite length_app; simpl; lia).
Qed.

(** Fewer than [w] observations: every rolling mean is NaN. *)
Lemma rolling_mean_warmup (w : nat) (xs : list fval) :
  (length xs < w)%nat -> filter notnan (rolling_mean w xs) = [].
Proof.
  intros H; apply filter_all_false; intros v Hv.
  unfold rolling_mean in Hv; apply in_map_iff in Hv as (i & <- & Hi).
  apply in_seq in Hi; unfold window_mean.
  rewrite length_firstn.
  destruct (Nat.ltb_spec (Nat.min (S i) (length xs)) w); [reflexivity|lia].
Qed.

Lemma window_mean_three (pre : list fval) (a b c : Q) :
  window_mean 3 (pre ++ [Num a; Num b; Num c]) = Num (Qred ((a + (b + (c + 0))) / 3)).
Proof.
  unfold window_mean; rewrite length_app; simpl length.
  destruct (Nat.ltb_spec (length pre + 3) 3); [lia|].
  replace (length pre + 3 - 3)%nat with (length pre + 0)%nat by lia.
  rewrite skipn_app, skipn_all2, Nat.add_comm by lia; simpl.
  replace (length pre - length pre)%nat with 0%nat by lia. reflexivity.
Qed.

(** * What [pm_value] computes *)



Lemma unlabel_reset_index (l : list (LocationKey * nat * fval)) :
  map unlabel (reset_index l) = l.
Proof.
  unfold reset_index; rewrite map_map.
  transitivity (map snd (combine (seq 0 (length l)) l)).
  - apply map_ext; intros [i [[[la lo] n] v]]; reflexivity.
  - apply map_snd_combine_eq; now rewrite length_seq.
Qed.

Lemma ra_index_reset_index (l : list (LocationKey * nat * fval)) :
  map ra_index (reset_index l) = seq 0 (length l).
Proof.
  unfold reset_index; rewrite map_map.
  transitivity (map fst (combine (seq 0 (length l)) l)).
  - apply map_ext; intros [i x]; reflexivity.
  - apply map_fst_combine_eq; now rewrite length_seq.
Qed.

Lemma rolling_average_labels (df : DataFrame) :
  NoDup (map ra_index (rolling_average df)).
Proof. unfold rolling_average; rewrite ra_index_reset_index; apply seq_NoDup. Qed.

Lemma group_values (k : LocationKey) (df : DataFrame) :
  map (fun ir : nat * row => value (snd ir))
      (filter (fun ir => key_eqb (key_of (snd ir)) k) (indexed df))
  = map value (history k df).
Proof.
  rewrite <- (map_map snd value).
  rewrite (map_filter_comm snd (fun r => key_eqb (key_of r) k)).
  unfold indexed; rewrite map_snd_combine_eq by now rewrite length_seq.
  reflexivity.
Qed.

Lemma rolling_group_values (g : LocationKey * list (nat * row)) :
  map snd (rolling_group g)
  = rolling_mean 3 (map (fun ir => value (snd ir)) (snd g)).
Proof.
  unfold rolling_group; rewrite map_map; cbn [snd].
  change (fun x : nat * fval => snd x) with (@snd nat fval).
  apply map_snd_combine_eq.
  now rewrite rolling_mean_length, !length_map.
Qed.

Lemma rolling_group_filter (c : LocationKey) (g : LocationKey * list (nat * row)) :
  filter (fun t : LocationKey * nat * fval => key_eqb (fst (fst t)) c) (rolling_group g)
  = if key_eqb (fst g) c then rolling_group g else [].
Proof.
  destruct (key_eqb (fst g) c) eqn:E.
  - apply filter_all_true; intros t Ht.
    unfold rolling_group in Ht; apply in_map_iff in Ht as (iv & <- & _); exact E.
  - apply filter_all_false; intros t Ht.
    unfold rolling_group in Ht; apply in_map_iff in Ht as (iv & <- & _); exact E.
Qed.

(** The rolling means that [rolling_average] holds for one location are the
    rolling means of that location's own values, in arrival order. *)
Lemma rolling_average_location (df : DataFrame) (c : LocationKey) :
  existsb (fun k => key_eqb k c) (map key_of df) = true ->
  map ra_value (filter (same_location (fst c) (snd c)) (rolling_average df))
  = rolling_mean 3 (map value (history c df)).
Proof.
  intros Hex.
  change ra_value with (fun r => snd (unlabel r)); rewrite <- (map_map unlabel snd).
  change (same_location (fst c) (snd c))
    with (fun r => (fun t : LocationKey * nat * fval => key_eqb (fst (fst t)) c) (unlabel r)).
  rewrite (map_filter_comm unlabel).
  unfold rolling_average; rewrite unlabel_reset_index.
  rewrite filter_flat_map, map_flat_map.
  unfold groupby; rewrite flat_map_concat_map, map_map, <- flat_map_concat_map.
  rewrite (flat_map_ext _
    (fun k => if key_eqb k c then rolling_mean 3 (map value (history c df)) else [])).
  - apply flat_map_count_one.
    now rewrite count_key_sort, count_key_unique, Hex.
  - intros k; rewrite rolling_group_filter; cbn [fst].
    destruct (key_eqb k c) eqn:E; [|reflexivity].
    rewrite rolling_group_values; cbn [snd].
    now rewrite group_values, (history_compat k c).
Qed.

Lemma iloc_last_snoc (df : DataFrame) (r : row) : iloc_last (df ++ [r]) = Ok r.
Proof.
  unfold iloc_last; rewrite length_app; simpl.
  replace (length df + 1 - 1)%nat with (length df) by lia.
  now rewrite nth_error_app2, Nat.sub_diag by lia.
Qed.

Lemma key_occurs_snoc (df : DataFrame) (r : row) :
  existsb (fun k => key_eqb k (key_of r)) (map key_of (df ++ [r])) = true.
Proof.
  rewrite map_app, existsb_app; simpl.
  now rewrite key_eqb_refl, orb_true_r.
Qed.

(** [pm_value] is the last non-NaN rolling mean over the arrivals of the
    current reading's own location. *)
Lemma pm_value_char (df : DataFrame) (r : row) :
  pm_value (df ++ [r])
  = last_valid (rolling_mean 3 (map value (history (key_of r) (df ++ [r])))).
Proof.
  unfold pm_value, last_valid; rewrite iloc_last_snoc; cbn [bind].
  set (RA := rolling_average (df ++ [r])).
  set (M := filter (same_location (lat r) (lon r)) (dropna RA)).
  assert (HV : map ra_value M
               = filter notnan
                   (rolling_mean 3 (map value (history (key_of r) (df ++ [r]))))).
  { rewrite <- (rolling_average_location (df ++ [r]) (key_of r))
      by apply key_occurs_snoc.
    cbn [key_of fst snd]; fold RA.
    rewrite <- (map_filter_comm ra_value notnan).
    unfold M, dropna; rewrite filter_filter_comm; reflexivity. }
  rewrite <- HV.
  assert (Hnd : NoDup (map ra_index (dropna RA)))
    by (apply NoDup_map_filter, rolling_average_labels).
  assert (HM : forall x, In x M -> In x (dropna RA))
    by (intros x Hx; apply filter_In in Hx; tauto).
  unfold index_last; rewrite <- map_rev.
  destruct (rev M) as [|x t] eqn:E; cbn [bind map]; [reflexivity|].
  unfold loc_value.
  rewrite (find_by_label ra_index (dropna RA) x Hnd); [reflexivity|].
  apply HM, in_rev; rewrite E; now left.
Qed.

(** * From [pm_value] to the printed line *)

Lemma event_notification_snoc (df : DataFrame) (r : row) (threshold : Q) :
  event_notification (df ++ [r]) threshold
  = match pm_value (df ++ [r]) with
    | Ok pm => Some (if fgtb pm threshold
                     then Warning (boxId r) (day r) (round2 pm)
                     else Safe (boxId r) (day r))
    | Raise _ => None
    end.
Proof.
  unfold event_notification, event_notification_try.
  destruct (pm_value (df ++ [r])) as [pm|e]; cbn [bind]; [|reflexivity].
  rewrite iloc_last_snoc; cbn [bind].
  now destruct (fgtb pm threshold).
Qed.

Lemma pm_value_nonempty (df : DataFrame) (m : fval) :
  pm_value df = Ok m -> exists df0 r, df = df0 ++ [r].
Proof.
  destruct df as [|r0 df] using rev_ind; [discriminate|].
  intros _; now exists df, r0.
Qed.

Lemma fgtb_lt (q threshold : Q) : fgtb (Num q) threshold = true <-> threshold < q.
Proof.
  unfold fgtb; rewrite negb_true_iff, <- not_true_iff_false, Qle_bool_iff.
  split; [apply Qnot_le_lt | apply Qlt_not_le].
Qed.

Lemma last_valid_snoc (l : list fval) (q : Q) : last_valid (l ++ [Num q]) = Ok (Num q).
Proof.
  unfold last_valid; rewrite filter_app; simpl; now rewrite rev_unit.
Qed.

(** When the three most recent values of the location are numbers,
    [pm_value] is their mean. *)
Lemma pm_value_recent_three (df : DataFrame) (r : row) (pre : list fval) (a b c : Q) :
  map value (history (key_of r) (df ++ [r])) = pre ++ [Num a; Num b; Num c] ->
  pm_value (df ++ [r]) = Ok (Num (Qred ((a + (b + (c + 0))) / 3))).
Proof.
  intros H; rewrite pm_value_char, H.
  change (pre ++ [Num a; Num b; Num c]) with (pre ++ [Num a; Num b] ++ [Num c]).
  rewrite app_assoc, rolling_mean_snoc, <- app_assoc.
  change (pre ++ [Num a; Num b] ++ [Num c]) with (pre ++ [Num a; Num b; Num c]).
  rewrite window_mean_three; apply last_valid_snoc.
Qed.


(** Readings of another location do not enter a location's history. *)
Lemma history_snoc_other (k : LocationKey) (df : DataFrame) (r : row) :
  key_eqb (key_of r) k = false -> history k (df ++ [r]) = history k df.
Proof.
  intros H; unfold history; rewrite filter_app; simpl.
  rewrite H; apply app_nil_r.
Qed.

Lemma history_snoc_same (df : DataFrame) (r : row) :
  history (key_of r) (df ++ [r]) = history (key_of r) df ++ [r].
Proof.
  unfold history; rewrite filter_app; simpl.
  now rewrite key_eqb_refl.
Qed.

(** * The rolling mean and the alert *)

Lemma window_mean_finite (w : nat) (pre : list fval) :
  window_mean w pre = NaN \/ exists q, window_mean w pre = Num q.
Proof.
  unfold window_mean.
  destruct (length pre <? w)%nat; [now left|].
  destruct (fsum _) as [s|]; [right; eauto | now left].
Qed.

(** A rolling mean is a number or NaN, never an infinity. *)
Lemma last_valid_num (vs : list fval) (v : fval) :
  last_valid (rolling_mean 3 vs) = Ok v -> exists q, v = Num q.
Proof.
  unfold last_valid.
  destruct (rev (filter notnan (rolling_mean 3 vs))) as [|x t] eqn:E; [discriminate|].
  intros [= <-].
  assert (Hin : In x (filter notnan (rolling_mean 3 vs)))
    by (apply in_rev; rewrite E; now left).
  apply filter_In in Hin as [Hin Hx].
  unfold rolling_mean in Hin; apply in_map_iff in Hin as (i & <- & _).
  destruct (window_mean_finite 3 (firstn (S i) vs)) as [H|[q H]];
    rewrite H in *; [discriminate | now exists q].
Qed.

Lemma event_notification_empty (threshold : Q) : event_notification [] threshold = None.
Proof. reflexivity. Qed.

(** The loop run on the five readings prints what the notebook shows for
    the first sensor: nothing for the first two, then two safe lines and the
    warning with 25.88. *)
Example notebook_output :
  consume decimal_float pm_threshold notebook_polls initial
  = (mkState notebook_rows
       [ Safe box1 "2022-01-23T15:00:00.000Z";
         Safe box1 "2022-01-24T16:00:00.000Z";
         Warning box1 "2022-01-25T17:00:00.000Z" (Num 25.88) ]
       [] 5 true,
     Completed).
Proof. now vm_compute. Qed.

(** C1 (the code departs from the claim). After the five readings of the
    notebook's first sensor, a sixth reading whose value is NaN arrives for
    the same location. The three most recent values are then 26.606711,
    38.289267 and NaN, whose rolling mean is NaN; [pm_value] is nevertheless
    the mean of the three values before the NaN, and a warning with 25.88 is
    printed under the timestamp of the NaN reading, by [ingest] and so by
    the loop. *)
Theorem stale_mean_after_nan :
  recent_values notebook_rows nan_reading = [Num 26.606711; Num 38.289267; NaN]
  /\ window_mean 3 (map value (history (key_of nan_reading)
                                        (notebook_rows ++ [nan_reading]))) = NaN
  /\ pm_value (notebook_rows ++ [nan_reading]) = Ok (Num (77653111 # 3000000))
  /\ (77653111 # 3000000) == (12.757133 + 26.606711 + 38.289267) / 3
  /\ ingest notebook_rows pm_threshold nan_reading
     = (notebook_rows ++ [nan_reading],
        Some (Warning box1 "2022-01-26T18:00:00.000Z" (Num 25.88)))
  /\ stdout (fst (consume decimal_float pm_threshold
                          (notebook_polls ++ [nan_poll]) initial))
     = [ Safe box1 "2022-01-23T15:00:00.000Z";
         Safe box1 "2022-01-24T16:00:00.000Z";
         Warning box1 "2022-01-25T17:00:00.000Z" (Num 25.88);
         Warning box1 "2022-01-26T18:00:00.000Z" (Num 25.88) ].
Proof.
  split; [reflexivity|].
  split; [reflexivity|].
  split; [now vm_compute|].
  split; [reflexivity|].
  split; [unfold ingest; f_equal; now vm_compute | now vm_compute].
Qed.

(** C2. When the location of the reading just ingested has fewer than 3
    readings, this one included, [ingest] appends the reading and prints
    nothing, neither a warning nor a safe line; the loop then commits and
    goes on with the next poll, its output unchanged. *)
Theorem warmup_no_decision
  (float : string -> option fval) (threshold : Q) (tbl : DataFrame) (r : row) :
  (length (history (key_of r) (tbl ++ [r])) < 3)%nat ->
  ingest tbl threshold r = (tbl ++ [r], None)
  /\ forall body s rest st,
       decode float body = Ok s -> row_of_stream s = Some r -> df st = tbl ->
       while_running float threshold (Polled (ValueMessage body) :: rest) st
       = while_running float threshold rest
           (commit (mkState (tbl ++ [r]) (stdout st) (stderr st)
                            (commits st) (closed st))).
Proof.
  intros Hlen.
  assert (Hnone : event_notification (tbl ++ [r]) threshold = None).
  { rewrite event_notification_snoc, pm_value_char.
    unfold last_valid.
    rewrite rolling_mean_warmup by now rewrite length_map.
    reflexivity. }
  split.
  - unfold ingest; now rewrite Hnone.
  - intros body s rest st Hs Hr Hdf.
    cbn [while_running]; rewrite Hs, Hr; unfold ingest.
    now rewrite Hdf, Hnone.
Qed.

Lemma warmup_no_decision_witness :
  ingest (firstn 1 notebook_rows) pm_threshold
         (reading1 (Num 6.322550) "2022-01-22T14:00:00.000Z")
  = (firstn 2 notebook_rows, None)
  /\ while_running decimal_float pm_threshold
       [Polled (ValueMessage
                  (Some (message1 "6.322550" "2022-01-22T14:00:00.000Z")))]
       (mkState (firstn 1 notebook_rows) [] [] 1 false)
     = (mkState (firstn 2 notebook_rows) [] [] 2 false, Break).
Proof.
  destruct (warmup_no_decision decimal_float pm_threshold (firstn 1 notebook_rows)
              (reading1 (Num 6.322550) "2022-01-22T14:00:00.000Z"))
    as [Hi Hl].
  - simpl; lia.
  - split; [exact Hi|].
    now rewrite (Hl (Some (message1 "6.322550" "2022-01-22T14:00:00.000Z"))
                   (Stream.mk (JNum 51.956168) (JNum 7.651169)
                              (JStr "2022-01-22T14:00:00.000Z") (Num 6.322550)
                              (JStr box1))
                   [] (mkState (firstn 1 notebook_rows) [] [] 1 false)
                   eq_refl eq_refl eq_refl).
Defined.

(** The comparison is strict. Whenever [event_notification] prints a line,
    the value it compared
    is a number [q] and the line is the warning exactly when [q] is strictly
    above the threshold; a mean equal to the threshold gives the safe line.
    And in every table where the last three arrivals of the current location
    are 12.757133, 26.606711 and 38.289267, the mean is within 0.01 of 25.884
    and the warning is printed for the threshold 20 of the notebook. *)
Theorem fired_iff_mean_above_threshold :
  (forall (df : DataFrame) (threshold : Q) (n : notification),
      event_notification df threshold = Some n ->
      exists q, pm_value df = Ok (Num q)
                /\ (fired n = true <-> threshold < q)
                /\ (q == threshold -> fired n = false))
  /\ (forall (df : DataFrame) (r : row) (pre : list fval),
        map value (history (key_of r) (df ++ [r]))
        = pre ++ [Num 12.757133; Num 26.606711; Num 38.289267] ->
        exists q n, pm_value (df ++ [r]) = Ok (Num q)
                    /\ Qabs (q - 25.884) <= 0.01
                    /\ event_notification (df ++ [r]) pm_threshold = Some n
                    /\ fired n = true).
Proof.
  split.
  - intros df threshold n Hn.
    destruct df as [|r df0 _] using rev_ind; [discriminate|].
    rewrite event_notification_snoc in Hn.
    destruct (pm_value (df0 ++ [r])) as [pm|e] eqn:Hpm; [|discriminate].
    pose proof Hpm as Hq; rewrite pm_value_char in Hq.
    apply last_valid_num in Hq as [q ->].
    exists q; split; [reflexivity|].
    assert (Hf : fired n = fgtb (Num q) threshold)
      by (injection Hn as <-; unfold fgtb; now destruct (Qle_bool q threshold)).
    rewrite Hf; clear Hn Hf.
    destruct (fgtb (Num q) threshold) eqn:Hgt.
    + apply fgtb_lt in Hgt.
      split; [split; intros _; [exact Hgt | reflexivity]|].
      intros Heq; exfalso; apply (Qlt_not_le _ _ Hgt).
      rewrite Heq; apply Qle_refl.
    + split; [|reflexivity].
      split; [discriminate|].
      intros Hlt; apply fgtb_lt in Hlt; congruence.
  - intros df r pre H.
    pose proof (pm_value_recent_three df r pre _ _ _ H) as Hpm.
    eexists; eexists; split; [exact Hpm|].
    rewrite event_notification_snoc, Hpm.
    split; [now vm_compute|].
    split; reflexivity.
Qed.

Lemma fired_iff_mean_above_threshold_witness :
  exists q, pm_value notebook_rows = Ok (Num q)
            /\ Qabs (q - 25.884) <= 0.01
            /\ event_notification notebook_rows pm_threshold
               = Some (Warning box1 "2022-01-25T17:00:00.000Z" (Num 25.88))
            /\ pm_threshold < q.
Proof.
  destruct (proj1 fired_iff_mean_above_threshold notebook_rows pm_threshold
              (Warning box1 "2022-01-25T17:00:00.000Z" (Num 25.88)) eq_refl)
    as (q & Hq & Hiff & _).
  exists q; split; [exact Hq|].
  split.
  - destruct (proj2 fired_iff_mean_above_threshold (firstn 4 notebook_rows)
                (reading1 (Num 38.289267) "2022-01-25T17:00:00.000Z")
                [Num 4.190406; Num 6.322550] eq_refl)
      as (q' & n & Hq' & Habs & _).
    change (firstn 4 notebook_rows
            ++ [reading1 (Num 38.289267) "2022-01-25T17:00:00.000Z"])
      with notebook_rows in Hq'.
    rewrite Hq in Hq'; injection Hq' as ->; exact Habs.
  - split; [reflexivity|].
    apply Hiff; reflexivity.
Defined.

(** C5. The value [pm_value] computes for a reading, and the line printed
    for it, depend only on the readings of the same location: two tables
    that hold the same readings for that location give the same result. In
    particular a reading ingested for another location changes neither the
    location's history nor what is computed for its next reading. *)
Theorem other_locations_do_not_matter :
  (forall (df1 df2 : DataFrame) (r : row) (threshold : Q),
      history (key_of r) df1 = history (key_of r) df2 ->
      pm_value (df1 ++ [r]) = pm_value (df2 ++ [r])
      /\ snd (ingest df1 threshold r) = snd (ingest df2 threshold r))
  /\ (forall (df : DataFrame) (r1 r2 : row) (threshold : Q),
        key_eqb (key_of r2) (key_of r1) = false ->
        let df' := fst (ingest df threshold r2) in
        history (key_of r1) df' = history (key_of r1) df
        /\ pm_value (df' ++ [r1]) = pm_value (df ++ [r1])
        /\ snd (ingest df' threshold r1) = snd (ingest df threshold r1)).
Proof.
  assert (A : forall (df1 df2 : DataFrame) (r : row) (threshold : Q),
             history (key_of r) df1 = history (key_of r) df2 ->
             pm_value (df1 ++ [r]) = pm_value (df2 ++ [r])
             /\ snd (ingest df1 threshold r) = snd (ingest df2 threshold r)).
  { intros df1 df2 r threshold H.
    assert (Hpm : pm_value (df1 ++ [r]) = pm_value (df2 ++ [r])).
    { rewrite !pm_value_char, !history_snoc_same. now rewrite H. }
    split; [exact Hpm|].
    unfold ingest; cbn [snd].
    now rewrite !event_notification_snoc, Hpm. }
  split; [exact A|].
  intros df r1 r2 threshold Hne df'.
  assert (Hh : history (key_of r1) df' = history (key_of r1) df)
    by (apply history_snoc_other; exact Hne).
  split; [exact Hh|].
  apply A; exact Hh.
Qed.

Lemma other_locations_do_not_matter_witness :
  pm_value (firstn 4 notebook_rows
            ++ [reading2 (Num 26.25) "2022-01-25T17:00:00.000Z"]
            ++ [reading1 (Num 38.289267) "2022-01-25T17:00:00.000Z"])
  = pm_value notebook_rows.
Proof.
  rewrite app_assoc.
  apply (proj1 other_locations_do_not_matter
           (firstn 4 notebook_rows ++ [reading2 (Num 26.25) "2022-01-25T17:00:00.000Z"])
           (firstn 4 notebook_rows)
           (reading1 (Num 38.289267) "2022-01-25T17:00:00.000Z") 20).
  apply (proj2 other_locations_do_not_matter (firstn 4 notebook_rows)
           (reading1 (Num 38.289267) "2022-01-25T17:00:00.000Z")
           (reading2 (Num 26.25) "2022-01-25T17:00:00.000Z") 20).
  reflexivity.
Defined.

(** C6. [ingest] appends exactly one row whatever the reading is: the table
    grows by one, the rows it held stay as they were, and a reading that is
    ingested a second time is stored a second time. A run of the loop only
    ever extends the table it started from, by at most one row per poll. *)
Theorem ingest_appends_one :
  (forall (df : DataFrame) (threshold : Q) (r : row),
      let df' := fst (ingest df threshold r) in
      df' = df ++ [r]
      /\ length df' = S (length df)
      /\ firstn (length df) df' = df
      /\ fst (ingest df' threshold r) = df ++ [r; r])
  /\ (forall (float : string -> option fval) (threshold : Q)
             (polls : list poll_event) (st : state),
        exists new,
          df (fst (while_running float threshold polls st)) = df st ++ new
          /\ (length new <= length polls)%nat).
Proof.
  split.
  - intros df threshold r df'; subst df'; cbn [ingest fst].
    repeat split.
    + rewrite length_app; simpl; lia.
    + now rewrite firstn_app, Nat.sub_diag, firstn_all, app_nil_r.
    + now rewrite <- app_assoc.
  - intros float threshold polls.
    induction polls as [|p rest IH]; intros st.
    + exists []; cbn; split; [now rewrite app_nil_r | lia].
    + destruct p as [[[| |]|body]|]; cbn [while_running].
      * destruct (IH (commit (write_stderr ReachedEnd st))) as (new & H & Hl).
        exists new; split; [exact H | simpl; lia].
      * destruct (IH (commit (write_stderr TopicUnknown st))) as (new & H & Hl).
        exists new; split; [exact H | simpl; lia].
      * exists []; cbn; split; [now rewrite app_nil_r | lia].
      * destruct (decode float body) as [s|e];
          [|exists []; cbn; split; [now rewrite app_nil_r | lia]].
        destruct (row_of_stream s) as [r|];
          [|exists []; cbn; split; [now rewrite app_nil_r | lia]].
        unfold ingest.
        match goal with
        | |- context [while_running _ _ rest ?s'] =>
            destruct (IH s') as (new & H & Hl)
        end.
        exists (r :: new); split; [|simpl; lia].
        rewrite H; cbn [df commit]. now rewrite <- app_assoc.
      * exists []; cbn; split; [now rewrite app_nil_r | lia].
Qed.

(** C3 (the code departs from the claim). The first sensor sends 30, 30,
    30, a reading without a value, then 1 and 1. At the sixth reading the
    location has six readings and its three most recent values are NaN, 1
    and 1: their rolling mean is NaN, which is not above the threshold 20.
    The value the code compares is 30, the mean of the window that ended
    three readings earlier, and the warning is printed under the sixth
    reading's timestamp. The comparison itself is strict, as the claim
    says; the mean it is applied to is not the one of the most recent
    values (the defect of C1). *)
Theorem warning_on_stale_window :
  length (history (key_of (reading1 (Num 1) "2022-01-26T18:00:00.000Z"))
                  high_nan_low) = 6%nat
  /\ recent_values (firstn 5 high_nan_low)
                   (reading1 (Num 1) "2022-01-26T18:00:00.000Z")
     = [NaN; Num 1; Num 1]
  /\ rolling_mean 3 (map value high_nan_low)
     = [NaN; NaN; Num 30; NaN; NaN; NaN]
  /\ fgtb NaN pm_threshold = false
  /\ pm_value high_nan_low = Ok (Num 30)
  /\ option_map fired (event_notification high_nan_low pm_threshold) = Some true
  /\ option_map line_day (event_notification high_nan_low pm_threshold)
     = Some "2022-01-26T18:00:00.000Z"%string.
Proof.
  split; [reflexivity|].
  split; [reflexivity|].
  split; [now vm_compute|].
  split; [reflexivity|].
  split; [now vm_compute|].
  split; now vm_compute.
Qed.



(** * Decoding and the loop *)

Lemma bind_raise {A B : Type} (m : result A) (k : A -> result B) (e : exn) :
  bind m k = Raise e -> m = Raise e \/ exists a, m = Ok a /\ k a = Raise e.
Proof. destruct m as [a|e']; cbn; intros H; [right; eauto | left; congruence]. Qed.

Lemma keys_raise (input : json) (e : exn) : keys input = Raise e -> decode_error e.
Proof. destruct input; cbn; intros [= <-]; unfold decode_error; tauto. Qed.

Lemma first_raise {A : Type} (l : list A) (e : exn) : first l = Raise e -> decode_error e.
Proof. destruct l; cbn; intros [= <-]; unfold decode_error; tauto. Qed.

Lemma getitem_raise (input : json) (k : string) (e : exn) :
  getitem input k = Raise e -> decode_error e.
Proof.
  destruct input; cbn; try (intros [= <-]; unfold decode_error; tauto).
  destruct (find _ entries); intros [= <-]; unfold decode_error; tauto.
Qed.

Lemma item_raise (v : json) (i : nat) (e : exn) : item v i = Raise e -> decode_error e.
Proof.
  destruct v; cbn; try (intros [= <-]; unfold decode_error; tauto).
  - destruct (String.get i s); intros [= <-]; unfold decode_error; tauto.
  - destruct (nth_error items i); intros [= <-]; unfold decode_error; tauto.
Qed.

Section ConsumerFacts.
Variable float : string -> option fval.

Lemma float_of_key_raise (k : string) (e : exn) :
  float_of_key float k = Raise e -> decode_error e.
Proof.
  unfold float_of_key; destruct (float k); intros [= <-]; unfold decode_error; tauto.
Qed.

Lemma parse_raise (input : json) (e : exn) :
  parse float input = Raise e -> decode_error e.
Proof.
  unfold parse; intros H.
  repeat match type of H with
         | bind _ _ = Raise _ =>
             apply bind_raise in H as [H | (? & _ & H)];
             [ first [ exact (keys_raise _ _ H) | exact (first_raise _ _ H)
                     | exact (getitem_raise _ _ _ H) | exact (item_raise _ _ _ H)
                     | exact (float_of_key_raise _ _ H) ] | ]
         end.
  discriminate.
Qed.

Lemma decode_raise (body : option json) (e : exn) :
  decode float body = Raise e -> decode_error e.
Proof.
  destruct body as [input|]; cbn.
  - apply parse_raise.
  - intros [= <-]; unfold decode_error; tauto.
Qed.

(** C4 (amended). When a message fails to decode, the exception leaves the
    loop: the loop stops at that message, the polls after it are not
    consumed, nothing is written to the log, the consumer is closed and the
    exception leaves the cell. The table, the printed lines and the commit
    count are those before the message. *)
Theorem decode_failure_leaves_the_loop
  (threshold : Q) (body : option json) (rest : list poll_event) (st : state) (e : exn) :
  decode float body = Raise e ->
  while_running float threshold (Polled (ValueMessage body) :: rest) st = (st, Raised e)
  /\ consume float threshold (Polled (ValueMessage body) :: rest) st
     = (close st, Uncaught e)
  /\ df (fst (consume float threshold (Polled (ValueMessage body) :: rest) st)) = df st.
Proof.
  intros H.
  assert (Hw : while_running float threshold (Polled (ValueMessage body) :: rest) st
               = (st, Raised e)) by (cbn [while_running]; now rewrite H).
  assert (Hc : consume float threshold (Polled (ValueMessage body) :: rest) st
               = (close st, Uncaught e)).
  { unfold consume; rewrite Hw.
    destruct (decode_raise body e H) as [->|[->|[->|[->|[->| ->]]]]]; reflexivity. }
  split; [exact Hw|]. split; [exact Hc|]. now rewrite Hc.
Qed.

Lemma parse_single_entry (k : string) (a b c d : json) (v : fval) :
  float k = Some v ->
  parse float (JObj [(k, JArr [a; b; c; d])]) = Ok (Stream.mk a b c v d).
Proof.
  intros Hv; unfold parse; cbn.
  rewrite String.eqb_refl; cbn.
  unfold float_of_key; now rewrite Hv.
Qed.

(** C7. For a message that is an object with one key [k], a float literal,
    mapped to a list of four elements, [parse] gives the dictionary with
    [value = float(k)], [lat] the first element, [lon] the second, [day] the
    third and [boxId] the fourth. *)
Theorem parse_well_formed (k : string) (a b c d : json) (v : fval) :
  float k = Some v ->
  parse float (JObj [(k, JArr [a; b; c; d])]) = Ok (Stream.mk a b c v d).
Proof. apply parse_single_entry. Qed.

(** C9. When the object has more than one key, [parse] reads the first
    entry only: the result is the one for the object reduced to its first
    entry, so no exception is raised because of the other entries, and a
    well-formed first entry gives its dictionary. *)
Theorem parse_uses_first_key (k : string) (v : json) (others : list (string * json)) :
  parse float (JObj ((k, v) :: others)) = parse float (JObj [(k, v)])
  /\ forall a b c d x,
       v = JArr [a; b; c; d] -> float k = Some x ->
       parse float (JObj ((k, v) :: others)) = Ok (Stream.mk a b c x d).
Proof.
  assert (H : parse float (JObj ((k, v) :: others)) = parse float (JObj [(k, v)])).
  { unfold parse; cbn. now rewrite String.eqb_refl. }
  split; [exact H|].
  intros a b c d x -> Hx; rewrite H.
  now apply parse_single_entry.
Qed.
End ConsumerFacts.

(** C4 (counterexample). A malformed payload is followed by a good message.
    The run ends with the uncaught [JSONDecodeError]: nothing is logged and
    the good message is never consumed, although consumed alone it adds its
    row; so the loop does not go on with the next message from any state.
    An empty object ends the run in the same way with [IndexError]. *)
Lemma decode_failure_stops_the_loop :
  decode decimal_float None = Raise JSONDecodeError
  /\ consume decimal_float pm_threshold
       [Polled (ValueMessage None); Polled (ValueMessage (Some good_message))] initial
     = (mkState [] [] [] 0 true, Uncaught JSONDecodeError)
  /\ consume decimal_float pm_threshold
       [Polled (ValueMessage (Some good_message))] initial
     = (mkState [reading1 (Num 12.757133) "2022-01-23T15:00:00.000Z"] [] [] 1 true,
        Completed)
  /\ ~ (exists st',
          while_running decimal_float pm_threshold
            [Polled (ValueMessage None); Polled (ValueMessage (Some good_message))]
            initial
          = while_running decimal_float pm_threshold
              [Polled (ValueMessage (Some good_message))] st')
  /\ consume decimal_float pm_threshold
       [Polled (ValueMessage (Some (JObj []))); Polled (ValueMessage (Some good_message))]
       initial
     = (mkState [] [] [] 0 true, Uncaught IndexError).
Proof.
  split; [reflexivity|].
  split; [reflexivity|].
  split; [now vm_compute|].
  split; [|reflexivity].
  intros (st' & H).
  assert (Hd : decode decimal_float (Some good_message)
               = Ok (Stream.mk (JNum 51.956168) (JNum 7.651169)
                               (JStr "2022-01-23T15:00:00.000Z") (Num 12.757133)
                               (JStr box1))) by reflexivity.
  cbn [while_running] in H; rewrite Hd in H; cbn in H.
  discriminate H.
Qed.

Lemma decode_failure_leaves_the_loop_witness :
  consume decimal_float pm_threshold
    [Polled (ValueMessage None); Polled (ValueMessage (Some good_message))] initial
  = (close initial, Uncaught JSONDecodeError).
Proof.
  apply (decode_failure_leaves_the_loop decimal_float pm_threshold None
           [Polled (ValueMessage (Some good_message))] initial JSONDecodeError).
  reflexivity.
Defined.

Lemma parse_well_formed_witness :
  parse decimal_float good_message
  = Ok (Stream.mk (JNum 51.956168) (JNum 7.651169)
                  (JStr "2022-01-23T15:00:00.000Z") (Num 12.757133) (JStr box1)).
Proof.
  apply (parse_well_formed decimal_float "12.757133").
  reflexivity.
Defined.

Lemma parse_uses_first_key_witness :
  parse decimal_float
    (JObj [("12.757133"%string,
            JArr [JNum 51.956168; JNum 7.651169;
                  JStr "2022-01-23T15:00:00.000Z"; JStr box1]);
           ("26.606711"%string, JArr [JNum 51.964220; JNum 7.645220])])
  = Ok (Stream.mk (JNum 51.956168) (JNum 7.651169)
                  (JStr "2022-01-23T15:00:00.000Z") (Num 12.757133) (JStr box1)).
Proof.
  apply (proj2 (parse_uses_first_key decimal_float "12.757133" _
                 [("26.606711"%string, JArr [JNum 51.964220; JNum 7.645220])])
           _ _ _ _ _ eq_refl).
  reflexivity.
Defined.

(** * The sensor map *)

Lemma drop_duplicates_incl {A : Type} (same : A -> A -> bool) (l : list A) (y : A) :
  In y (drop_duplicates same l) -> In y l.
Proof.
  induction l as [|x t IH]; simpl; [tauto|].
  intros [->|H]; [now left|].
  apply filter_In in H as [H _]; right; auto.
Qed.

(** Every row has a kept row of the same class. *)
Lemma drop_duplicates_covers {A : Type} (same : A -> A -> bool) (l : list A) (x : A) :
  (forall a, same a a = true) ->
  (forall a b c, same a b = true -> same b c = true -> same a c = true) ->
  In x l -> exists y, In y (drop_duplicates same l) /\ same y x = true.
Proof.
  intros Hrefl Htrans; induction l as [|h t IH]; simpl; [tauto|].
  intros [->|Hin].
  - exists x; split; [now left | apply Hrefl].
  - destruct (IH Hin) as (y & Hy & Hyx).
    destruct (same h y) eqn:E.
    + exists h; split; [now left | eapply Htrans; eauto].
    + exists y; split; [|exact Hyx].
      right; apply filter_In; split; [exact Hy | now rewrite E].
Qed.

Lemma point_eqb_refl (p : point) : point_eqb p p = true.
Proof. apply key_eqb_refl. Qed.

Lemma point_eqb_trans (p q r : point) :
  point_eqb p q = true -> point_eqb q r = true -> point_eqb p r = true.
Proof. apply key_eqb_trans. Qed.

(** A marker lies at a sensor's location when its geometry is the sensor's
    point. *)
Lemma key_marker (k : LocationKey) (p : point) :
  key_eqb k (snd p, fst p) = point_eqb p (snd k, fst k).
Proof.
  unfold key_eqb, point_eqb; cbn [fst snd].
  rewrite andb_comm; f_equal; apply eq_true_iff_eq;
    rewrite !Qeq_bool_iff; split; intros H; now symmetry.
Qed.

Lemma key_point (k : LocationKey) (r : row) :
  key_eqb k (key_of r) = point_eqb (point_of r) (snd k, fst k).
Proof. exact (key_marker k (point_of r)). Qed.

Lemma shown_markers (k : LocationKey) (ps : list point) :
  shown k (markers ps) = true
  <-> exists p, In p ps /\ point_eqb p (snd k, fst k) = true.
Proof.
  unfold shown, markers; rewrite existsb_exists; split.
  - intros (m & Hm & Hk).
    apply in_map_iff in Hm as (p & <- & Hp).
    exists p; split; [exact Hp | now rewrite <- key_marker].
  - intros (p & Hp & Hk).
    exists (snd p, fst p); split; [|now rewrite key_marker].
    apply in_map_iff; now exists p.
Qed.

Lemma in_to_gdf (df : DataFrame) (g : Gdf.t) :
  In g (to_gdf df)
  <-> exists r, In r df
                /\ g = Gdf.mk (value r) (day r) (boxId r) (point_of r)
                              (if isnan (value r) then false else true).
Proof.
  unfold to_gdf; rewrite in_map_iff; split; intros (r & H1 & H2); exists r; auto.
Qed.

(** The inactive markers are the locations that have a NaN reading. *)
Lemma inactive_iff_nan_reading (df : DataFrame) (k : LocationKey) :
  shown k (inactive_markers df) = true
  <-> exists r, In r df /\ isnan (value r) = true /\ key_eqb k (key_of r) = true.
Proof.
  unfold inactive_markers, inactive_boxes; rewrite shown_markers; split.
  - intros (p & Hp & Hk).
    apply in_map_iff in Hp as (g & <- & Hg).
    apply drop_duplicates_incl, filter_In in Hg as [Hg Hv].
    apply in_to_gdf in Hg as (r & Hr & ->); cbn [Gdf.valid Gdf.geometry] in *.
    exists r; split; [exact Hr|]; split.
    + now destruct (isnan (value r)).
    + now rewrite key_point.
  - intros (r & Hr & Hnan & Hk).
    set (g := Gdf.mk (value r) (day r) (boxId r) (point_of r)
                     (if isnan (value r) then false else true)).
    assert (Hg : In g (filter (fun g => negb (Gdf.valid g)) (to_gdf df))).
    { apply filter_In; split; [apply in_to_gdf; now exists r|].
      unfold g; cbn; now rewrite Hnan. }
    destruct (drop_duplicates_covers
                (fun a b => point_eqb (Gdf.geometry a) (Gdf.geometry b)) _ g
                (fun a => point_eqb_refl _)
                (fun a b c => point_eqb_trans _ _ _) Hg) as (y & Hy & Hyg).
    exists (Gdf.geometry y); split; [now apply in_map|].
    eapply point_eqb_trans; [exact Hyg|].
    unfold g; cbn [Gdf.geometry].
    now rewrite <- key_point.
Qed.

(** An active marker is the location of a row dated at [recent_date]; the
    value of the row is not consulted. *)
Lemma active_has_recent_row (df : DataFrame) (k : LocationKey) :
  shown k (active_markers df) = true ->
  exists r, In r df /\ recent_date (to_gdf df) = Some (day r)
            /\ key_eqb k (key_of r) = true.
Proof.
  unfold active_markers, active_boxes; rewrite shown_markers.
  intros (p & Hp & Hk).
  apply in_map_iff in Hp as (g & <- & Hg).
  apply drop_duplicates_incl, filter_In in Hg as [Hg Hd].
  apply in_to_gdf in Hg as (r & Hr & ->); cbn [Gdf.day Gdf.geometry] in *.
  exists r; split; [exact Hr|]; split.
  - unfold on_day in Hd; destruct (recent_date (to_gdf df)) as [s|]; [|discriminate].
    apply String.eqb_eq in Hd; now subst.
  - now rewrite key_point.
Qed.

(** C8 (the code departs from the claim). With one sensor whose only reading
    is dated the 21st and another whose reading is dated the 22nd, the
    second sensor is the one active marker and there is no inactive marker:
    the first sensor is in neither class. *)
Theorem sensor_without_recent_reading_not_shown :
  recent_date (to_gdf two_sensors) = Some "2022-01-22T14:00:00.000Z"%string
  /\ active_markers two_sensors = [(51.964220, 7.645220)]
  /\ inactive_markers two_sensors = []
  /\ shown (51.956168, 7.651169) (active_markers two_sensors) = false
  /\ shown (51.956168, 7.651169) (inactive_markers two_sensors) = false.
Proof.
  assert (Hd : recent_date (to_gdf two_sensors) = Some "2022-01-22T14:00:00.000Z"%string)
    by reflexivity.
  assert (Ha : active_markers two_sensors = [(51.964220, 7.645220)]) by reflexivity.
  assert (Hi : inactive_markers two_sensors = []) by reflexivity.
  rewrite Ha, Hi; repeat split; assumption || reflexivity.
Qed.

(** C10. A location is an inactive marker exactly when it has a reading
    whose value is NaN, and an active marker is always the location of a row
    dated at [recent_date], whatever the value of the row. So a sensor with
    a NaN reading dated at [recent_date], and whose box id is used for its
    location only, is both an active and an inactive marker. *)
Theorem active_and_inactive_overlap (df : DataFrame) (r : row) :
  In r df ->
  isnan (value r) = true ->
  recent_date (to_gdf df) = Some (day r) ->
  (forall r', In r' df -> boxId r' = boxId r -> key_eqb (key_of r) (key_of r') = true) ->
  shown (key_of r) (active_markers df) = true
  /\ shown (key_of r) (inactive_markers df) = true
  /\ (forall k, shown k (inactive_markers df) = true
                <-> exists r', In r' df /\ isnan (value r') = true
                               /\ key_eqb k (key_of r') = true)
  /\ (forall k, shown k (active_markers df) = true ->
                exists r', In r' df /\ recent_date (to_gdf df) = Some (day r')
                           /\ key_eqb k (key_of r') = true).
Proof.
  intros Hr Hnan Hdate Hbox.
  split; [|split; [|split]].
  - unfold active_markers, active_boxes; apply shown_markers.
    set (g := Gdf.mk (value r) (day r) (boxId r) (point_of r)
                     (if isnan (value r) then false else true)).
    assert (Hg : In g (filter (on_day (recent_date (to_gdf df))) (to_gdf df))).
    { apply filter_In; split; [apply in_to_gdf; now exists r|].
      rewrite Hdate; unfold g; cbn. apply String.eqb_refl. }
    destruct (drop_duplicates_covers
                (fun a b => String.eqb (Gdf.boxId a) (Gdf.boxId b)) _ g
                (fun a => String.eqb_refl _)
                (fun a b c H1 H2 =>
                   proj2 (String.eqb_eq _ _)
                     (eq_trans (proj1 (String.eqb_eq _ _) H1)
                               (proj1 (String.eqb_eq _ _) H2)))
                Hg) as (y & Hy & Hyg).
    exists (Gdf.geometry y); split; [now apply in_map|].
    apply drop_duplicates_incl, filter_In in Hy as [Hy _].
    apply in_to_gdf in Hy as (r' & Hr' & ->).
    unfold g in Hyg; cbn [Gdf.boxId Gdf.geometry] in *.
    apply String.eqb_eq in Hyg.
    rewrite <- key_point.
    now apply Hbox.
  - apply inactive_iff_nan_reading.
    exists r; split; [exact Hr|]; split; [exact Hnan | apply key_eqb_refl].
  - intros k; apply inactive_iff_nan_reading.
  - intros k; apply active_has_recent_row.
Qed.

Lemma active_and_inactive_overlap_witness :
  shown (51.956168, 7.651169) (active_markers nan_on_recent_date) = true
  /\ shown (51.956168, 7.651169) (inactive_markers nan_on_recent_date) = true.
Proof.
  destruct (active_and_inactive_overlap nan_on_recent_date
              (reading1 NaN "2022-01-22T14:00:00.000Z"))
    as (Ha & Hi & _).
  - simpl; tauto.
  - reflexivity.
  - reflexivity.
  - intros r' [<-|[<-|[<-|[]]]]; intros Hb; try reflexivity; discriminate Hb.
  - split; [exact Ha | exact Hi].
Defined.

(** * Further properties of [event_notification] *)

Lemma window_mean_last_three (pre : list fval) (z y x : fval) :
  window_mean 3 (pre ++ [z; y; x])
  = match fsum [z; y; x] with
    | Some s => Num (Qred (s / 3))
    | None => NaN
    end.
Proof.
  unfold window_mean; rewrite length_app; simpl length.
  destruct (Nat.ltb_spec (length pre + 3) 3); [lia|].
  replace (length pre + 3 - 3)%nat with (length pre + 0)%nat by lia.
  rewrite skipn_app, skipn_all2, Nat.add_comm by lia; cbn [app Nat.add].
  replace (length pre - length pre)%nat with 0%nat by lia. reflexivity.
Qed.

Lemma mean3_sum (a b c : Q) : Qred ((a + (b + (c + 0))) / 3) = mean3 a b c.
Proof. unfold mean3; apply Qred_complete; field. Qed.

(** The newest rolling mean is a number exactly when the three newest
    values are numbers. *)
Lemma window_mean_snoc (xs : list fval) (x : fval) :
  window_mean 3 (xs ++ [x])
  = match x, rev xs with
    | Num c, Num b :: Num a :: _ => Num (mean3 a b c)
    | _, _ => NaN
    end.
Proof.
  destruct (rev xs) as [|y [|z t]] eqn:E.
  - apply (f_equal (@rev fval)) in E; rewrite rev_involutive in E; subst xs.
    now destruct x.
  - apply (f_equal (@rev fval)) in E; rewrite rev_involutive in E; subst xs.
    now destruct x, y.
  - apply (f_equal (@rev fval)) in E; rewrite rev_involutive in E; subst xs.
    cbn [rev]; rewrite <- !app_assoc; cbn [app].
    rewrite window_mean_last_three.
    destruct x as [c|?|], y as [b|?|], z as [a|?|]; cbn [fsum]; try reflexivity.
    now rewrite mean3_sum.
Qed.

Lemma last_valid_app_one (l : list fval) (v : fval) :
  last_valid (l ++ [v]) = if notnan v then Ok v else last_valid l.
Proof.
  unfold last_valid; rewrite filter_app; cbn [filter].
  destruct (notnan v); [now rewrite rev_unit | now rewrite app_nil_r].
Qed.

Lemma last_valid_latest_triple (vs : list fval) :
  last_valid (rolling_mean 3 vs)
  = match latest_triple (rev vs) with
    | Some (a, b, c) => Ok (Num (mean3 a b c))
    | None => Raise IndexError
    end.
Proof.
  induction vs as [|x xs IH] using rev_ind; [reflexivity|].
  rewrite rolling_mean_snoc, last_valid_app_one, window_mean_snoc, rev_unit.
  cbn [latest_triple].
  destruct x as [c|?|]; try exact IH.
  destruct (rev xs) as [|[b|?|] [|[a|?|] t]]; try exact IH.
  reflexivity.
Qed.

Lemma fgtb_line (r : row) (threshold m : Q) :
  (if fgtb (Num m) threshold
   then Warning (boxId r) (day r) (round2 (Num m))
   else Safe (boxId r) (day r))
  = line_for r threshold m.
Proof. unfold fgtb, line_for; now destruct (Qle_bool m threshold). Qed.

(** The printed line in terms of the location's own values. *)
Lemma event_notification_line (df : DataFrame) (r : row) (threshold : Q) :
  event_notification (df ++ [r]) threshold
  = match latest_triple (rev (map value (history (key_of r) (df ++ [r])))) with
    | Some (a, b, c) => Some (line_for r threshold (mean3 a b c))
    | None => None
    end.
Proof.
  rewrite event_notification_snoc, pm_value_char, last_valid_latest_triple.
  destruct (latest_triple _) as [[[a b] c]|]; [|reflexivity].
  now rewrite fgtb_line.
Qed.


Lemma Qle_bool_false (m t : Q) : Qle_bool m t = false <-> t < m.
Proof.
  rewrite <- not_true_iff_false, Qle_bool_iff.
  split; [apply Qnot_le_lt | apply Qlt_not_le].
Qed.

(** X3. The threshold decides only which of the two lines is printed,
    never whether one is printed. With a lower threshold every warning
    stays the same warning; with a higher one every safe line stays. *)
Theorem threshold_only_changes_the_kind (df : DataFrame) (t1 t2 : Q) :
  t1 <= t2 ->
  (event_notification df t1 = None <-> event_notification df t2 = None)
  /\ (forall n, event_notification df t2 = Some n -> fired n = true ->
                event_notification df t1 = Some n)
  /\ (forall n, event_notification df t1 = Some n -> fired n = false ->
                event_notification df t2 = Some n).
Proof.
  intros Hle.
  destruct df as [|r df _] using rev_ind.
  - repeat split; intros; discriminate || reflexivity.
  - rewrite !event_notification_line.
    destruct (latest_triple _) as [[[a b] c]|];
      [|repeat split; intros; discriminate || reflexivity].
    unfold line_for.
    destruct (Qle_bool (mean3 a b c) t1) eqn:E1, (Qle_bool (mean3 a b c) t2) eqn:E2;
      (split; [split; discriminate|]); split; intros n [= <-] Hf;
      try discriminate Hf; try reflexivity.
    + apply Qle_bool_iff in E1; apply Qle_bool_false in E2.
      exfalso; apply (Qlt_irrefl t2); lra.
    + apply Qle_bool_iff in E1; apply Qle_bool_false in E2.
      exfalso; apply (Qlt_irrefl t2); lra.
Qed.

Lemma threshold_only_changes_the_kind_witness :
  event_notification notebook_rows 10
  = Some (Warning box1 "2022-01-25T17:00:00.000Z" (Num 25.88)).
Proof.
  apply (proj1 (proj2 (threshold_only_changes_the_kind notebook_rows 10 pm_threshold
                         ltac:(discriminate)))
           (Warning box1 "2022-01-25T17:00:00.000Z" (Num 25.88)));
    reflexivity.
Defined.

Lemma history_app (k : LocationKey) (d1 d2 : DataFrame) :
  history k (d1 ++ d2) = history k d1 ++ history k d2.
Proof. apply filter_app. Qed.

Lemma history_others (k : LocationKey) (others : DataFrame) :
  (forall o, In o others -> key_eqb (key_of o) k = false) -> history k others = [].
Proof. intros H; apply filter_all_false; exact H. Qed.

Lemma history_one (k : LocationKey) (x : row) :
  key_eqb (key_of x) k = true -> history k [x] = [x].
Proof. intros H; unfold history; cbn [filter]; now rewrite H. Qed.

(** X4. A reading whose value is NaN changes nothing in what is computed
    for its location: the value compared with the threshold is the one
    computed at the previous reading of that location, whatever readings of
    other locations came in between, and the same kind of line is printed
    again. *)
Theorem nan_reading_repeats_previous_mean
  (df others : DataFrame) (r0 r : row) (threshold : Q) :
  key_eqb (key_of r0) (key_of r) = true ->
  (forall o, In o others -> key_eqb (key_of o) (key_of r) = false) ->
  value r = NaN ->
  pm_value ((df ++ r0 :: others) ++ [r]) = pm_value (df ++ [r0])
  /\ option_map fired (event_notification ((df ++ r0 :: others) ++ [r]) threshold)
     = option_map fired (event_notification (df ++ [r0]) threshold).
Proof.
  intros Hk Ho Hnan.
  assert (Hpm : pm_value ((df ++ r0 :: others) ++ [r]) = pm_value (df ++ [r0])).
  { rewrite !pm_value_char.
    rewrite (history_compat (key_of r0) (key_of r) (df ++ [r0]) Hk).
    change (r0 :: others) with ([r0] ++ others).
    rewrite !history_app, (history_others _ others Ho), app_nil_r.
    rewrite (history_one (key_of r) r (key_eqb_refl _)).
    rewrite map_app; cbn [map]; rewrite Hnan.
    rewrite rolling_mean_snoc, last_valid_app_one, window_mean_snoc.
    reflexivity. }
  split; [exact Hpm|].
  rewrite !event_notification_snoc, Hpm.
  destruct (pm_value (df ++ [r0])) as [pm|e]; [|reflexivity].
  cbn [option_map]; now destruct (fgtb pm threshold).
Qed.

Lemma nan_reading_repeats_previous_mean_witness :
  pm_value (notebook_rows ++ [nan_reading]) = pm_value notebook_rows.
Proof.
  apply (nan_reading_repeats_previous_mean (firstn 4 notebook_rows) []
           (reading1 (Num 38.289267) "2022-01-25T17:00:00.000Z") nan_reading
           pm_threshold).
  - reflexivity.
  - intros o [].
  - reflexivity.
Defined.

Lemma round_half_even_close (x : Q) :
  Qabs (inject_Z (round_half_even x) - x) <= 1 # 2.
Proof.
  unfold round_half_even.
  pose proof (Qfloor_le x) as Hlo.
  pose proof (Qlt_floor x) as Hhi.
  rewrite inject_Z_plus in Hhi; change (inject_Z 1) with 1 in Hhi.
  set (f := inject_Z (Qfloor x)) in *.
  apply Qabs_Qle_condition.
  destruct (Qcompare_spec (x - f) (1 # 2)) as [E|E|E].
  - destruct (Z.even (Qfloor x));
      [|rewrite inject_Z_plus; change (inject_Z 1) with 1]; fold f; split; lra.
  - fold f; split; lra.
  - rewrite inject_Z_plus; change (inject_Z 1) with 1; fold f; split; lra.
Qed.

(** In the model, where [round2] rounds the exact mean, the average shown
    in a warning differs from the mean that was compared with the threshold
    by at most 0.005; the
    mean itself, not the rounded value, is what exceeds the threshold. *)
Theorem warning_shows_rounded_mean
  (df : DataFrame) (threshold : Q) (sensebox timestamp : string) (p : fval) :
  event_notification df threshold = Some (Warning sensebox timestamp p) ->
  exists q z, pm_value df = Ok (Num q)
              /\ threshold < q
              /\ p = Num (inject_Z z / 100)
              /\ Qabs (inject_Z z / 100 - q) <= 1 # 200.
Proof.
  intros H.
  destruct df as [|r df _] using rev_ind; [discriminate|].
  rewrite event_notification_snoc in H.
  destruct (pm_value (df ++ [r])) as [pm|e] eqn:Hpm; [|discriminate].
  pose proof Hpm as Hq; rewrite pm_value_char in Hq.
  apply last_valid_num in Hq as [q ->].
  destruct (fgtb (Num q) threshold) eqn:Hgt; [|discriminate].
  injection H as _ _ <-.
  exists q, (round_half_even (q * 100)); split; [reflexivity|].
  split; [now apply fgtb_lt|].
  split; [reflexivity|].
  pose proof (round_half_even_close (q * 100)) as Hc.
  apply Qabs_Qle_condition in Hc; apply Qabs_Qle_condition.
  set (z := inject_Z (round_half_even (q * 100))) in *.
  unfold Qdiv; change (/ 100) with (1 # 100).
  split; lra.
Qed.

Lemma warning_shows_rounded_mean_witness :
  exists q z, pm_value notebook_rows = Ok (Num q)
              /\ pm_threshold < q
              /\ Num 25.88 = Num (inject_Z z / 100)
              /\ Qabs (inject_Z z / 100 - q) <= 1 # 200.
Proof.
  apply (warning_shows_rounded_mean notebook_rows pm_threshold box1
           "2022-01-25T17:00:00.000Z" (Num 25.88)).
  reflexivity.
Defined.




(** * The frame [rolling_average] *)

Lemma flat_map_split_perm {A B : Type} (f g : A -> list B) (l : list A) :
  Permutation (flat_map (fun a => f a ++ g a) l) (flat_map f l ++ flat_map g l).
Proof.
  induction l as [|a l IH]; cbn [flat_map]; [constructor|].
  rewrite IH, <- !app_assoc; apply Permutation_app_head.
  rewrite !app_assoc; apply Permutation_app_tail, Permutation_app_comm.
Qed.

Lemma flat_map_nil {A B : Type} (l : list A) :
  flat_map (fun _ : A => @nil B) l = [].
Proof. induction l; cbn; auto. Qed.

(** Splitting a list by keys that each member meets once only reorders it. *)
Lemma groups_permutation {A : Type} (kf : A -> LocationKey)
      (keys : list LocationKey) (l : list A) :
  (forall x, In x l -> count_key (kf x) keys = 1%nat) ->
  Permutation (flat_map (fun k => filter (fun x => key_eqb (kf x) k) l) keys) l.
Proof.
  induction l as [|x l IH]; intros H; cbn [filter].
  - now rewrite flat_map_nil.
  - rewrite (flat_map_ext _
      (fun k => (if key_eqb k (kf x) then [x] else [])
                ++ filter (fun y => key_eqb (kf y) k) l)).
    + rewrite flat_map_split_perm, flat_map_count_one by (apply H; now left).
      cbn [app]; apply perm_skip, IH; intros y Hy; apply H; now right.
    + intros k; rewrite (key_eqb_sym k (kf x)).
      now destruct (key_eqb (kf x) k).
Qed.

Lemma key_counted_once (df : DataFrame) (r : row) :
  In r df -> count_key (key_of r) (sort_keys (unique (map key_of df))) = 1%nat.
Proof.
  intros Hr; rewrite count_key_sort, count_key_unique.
  replace (existsb _ _) with true; [reflexivity|].
  symmetry; apply existsb_exists; exists (key_of r); split.
  - now apply in_map.
  - apply key_eqb_refl.
Qed.

Lemma in_indexed (l : DataFrame) (i : nat) (r : row) :
  In (i, r) (indexed l) -> nth_error l i = Some r.
Proof.
  unfold indexed.
  assert (G : forall s, In (i, r) (combine (seq s (length l)) l) ->
                        nth_error l (i - s) = Some r /\ (s <= i)%nat).
  { induction l as [|x l IH]; intros s; cbn; [tauto|].
    intros [[= <- <-]|H].
    - now rewrite Nat.sub_diag.
    - destruct (IH _ H) as [Hn Hs]; split; [|lia].
      replace (i - s)%nat with (S (i - S s)) by lia. exact Hn. }
  intros H; destruct (G 0%nat H) as [Hn _]; now rewrite Nat.sub_0_r in Hn.
Qed.

Lemma rolling_group_labels (g : LocationKey * list (nat * row)) :
  map (fun t : LocationKey * nat * fval => snd (fst t)) (rolling_group g)
  = map fst (snd g).
Proof.
  unfold rolling_group; rewrite map_map; cbn [fst snd].
  change (fun x : nat * fval => fst x) with (@fst nat fval).
  apply map_fst_combine_eq.
  now rewrite rolling_mean_length, !length_map.
Qed.

(** X7. [rolling_average] holds exactly one row for every row of [df]: its
    index labels are 0, 1, ..., the column [level_2] lists every index label
    of [df] once, and each row carries the coordinates of the row of [df]
    that [level_2] names. *)
Theorem rolling_average_rows (df : DataFrame) :
  map ra_index (rolling_average df) = seq 0 (length df)
  /\ Permutation (map level_2 (rolling_average df)) (seq 0 (length df))
  /\ forall x, In x (rolling_average df) ->
       exists r, nth_error df (level_2 x) = Some r
                 /\ key_eqb (key_of r) (ra_lat x, ra_lon x) = true.
Proof.
  assert (Hperm : Permutation (map level_2 (rolling_average df)) (seq 0 (length df))).
  { change level_2 with (fun x => snd (fst (unlabel x))).
    rewrite <- (map_map unlabel (fun t : LocationKey * nat * fval => snd (fst t))).
    unfold rolling_average; rewrite unlabel_reset_index, map_flat_map.
    rewrite (flat_map_ext _ (fun g => map fst (snd g))) by apply rolling_group_labels.
    unfold groupby; rewrite flat_map_concat_map, map_map, <- flat_map_concat_map.
    cbn [snd].
    assert (Hs : seq 0 (length df) = map fst (indexed df))
      by (unfold indexed; symmetry; apply map_fst_combine_eq;
          now rewrite length_seq).
    rewrite Hs, <- map_flat_map.
    apply Permutation_map.
    apply (groups_permutation (fun ir : nat * row => key_of (snd ir))).
    intros [i r] Hin; cbn [snd].
    apply key_counted_once.
    apply in_indexed in Hin. now apply nth_error_In in Hin. }
  split; [|split; [exact Hperm|]].
  - pose proof (Permutation_length Hperm) as Hlen.
    rewrite length_map, length_seq in Hlen.
    pose proof (ra_index_reset_index (flat_map rolling_group (groupby df))) as E.
    fold (rolling_average df) in E; rewrite E.
    apply (f_equal (@length nat)) in E.
    rewrite length_map, length_seq in E. now rewrite <- E, Hlen.
  - intros x Hx.
    apply (in_map unlabel) in Hx.
    unfold rolling_average in Hx; rewrite unlabel_reset_index in Hx.
    apply in_flat_map in Hx as (g & Hg & Hx).
    unfold groupby in Hg; apply in_map_iff in Hg as (k & <- & _).
    unfold rolling_group in Hx; cbn [fst snd] in Hx.
    apply in_map_iff in Hx as ([i v] & Hu & Hiv).
    apply in_combine_l, in_map_iff in Hiv as ([i' r] & Hi & Hr).
    cbn [fst] in Hi; subst i'.
    apply filter_In in Hr as [Hr Hk]; cbn [snd] in Hk.
    exists r; unfold unlabel in Hu; injection Hu as Hk' Hl2 _.
    rewrite <- Hl2; split; [now apply in_indexed|].
    now rewrite Hk' in Hk.
Qed.

Lemma latest_triple_cons (x : fval) (t : list fval) :
  latest_triple t <> None -> latest_triple (x :: t) <> None.
Proof.
  intros H; cbn [latest_triple].
  destruct x as [c|?|]; try exact H.
  destruct t as [|[b|?|] [|[a|?|] t']]; try exact H. discriminate.
Qed.

Lemma latest_triple_app (l1 l2 : list fval) :
  latest_triple l2 <> None -> latest_triple (l1 ++ l2) <> None.
Proof.
  intros H; induction l1 as [|x l1 IH]; [exact H|].
  now apply latest_triple_cons.
Qed.

Lemma printed_iff (df : DataFrame) (r : row) (t : Q) :
  event_notification (df ++ [r]) t <> None
  <-> latest_triple (rev (map value (history (key_of r) (df ++ [r])))) <> None.
Proof.
  rewrite event_notification_line.
  destruct (latest_triple _) as [[[a b] c]|]; split; intros H E;
    try discriminate E; now apply H.
Qed.

(** X17. Once a line has been printed for a reading of a location, a line
    is printed for every later reading of that location, whatever the
    values (NaN included), the threshold and the readings of other
    locations in between: a location never falls back into warm-up. *)
Theorem ready_is_permanent (df more : DataFrame) (r r' : row) (t t' : Q) :
  event_notification (df ++ [r]) t <> None ->
  key_eqb (key_of r) (key_of r') = true ->
  event_notification ((df ++ r :: more) ++ [r']) t' <> None.
Proof.
  rewrite !printed_iff; intros H Hk.
  rewrite (history_compat _ _ (df ++ [r]) Hk) in H.
  change (r :: more) with ([r] ++ more).
  rewrite <- !app_assoc, (app_assoc df [r]), history_app, map_app, rev_app_distr.
  now apply latest_triple_app.
Qed.

Lemma ready_is_permanent_witness :
  exists n, event_notification (notebook_rows ++ [nan_reading]) pm_threshold = Some n.
Proof.
  destruct (event_notification (notebook_rows ++ [nan_reading]) pm_threshold)
    as [n|] eqn:E; [now exists n|].
  exfalso; revert E.
  apply (ready_is_permanent (firstn 2 notebook_rows) (skipn 3 notebook_rows)
           (reading1 (Num 12.757133) "2022-01-23T15:00:00.000Z") nan_reading
           pm_threshold pm_threshold).
  - discriminate.
  - reflexivity.
Defined.

(** * Further properties of the loop *)

Section LoopFacts.
Variable float : string -> option fval.
Variable threshold : Q.

(** The loop over two lists of polls in a row: the second list is reached
    only when the first ends by a timeout. *)
Lemma while_running_app (p1 p2 : list poll_event) (st : state) :
  while_running float threshold (p1 ++ p2) st
  = match while_running float threshold p1 st with
    | (st1, Break) => while_running float threshold p2 st1
    | other => other
    end.
Proof.
  revert st; induction p1 as [|p p1 IH]; intros st; [reflexivity|].
  destruct p as [[[| |]|body]|]; cbn [app while_running]; try reflexivity;
    try apply IH.
  destruct (decode float body) as [s|e]; [|reflexivity].
  destruct (row_of_stream s) as [r|]; [|reflexivity].
  unfold ingest; apply IH.
Qed.

Lemma print_line_app (o : option notification) (out : list notification) :
  print_line o out = out ++ print_line o [].
Proof. destruct o; cbn; [reflexivity | now rewrite app_nil_r]. Qed.

(** Running the cell on polls [p1] followed by polls [p2] is running it
    on [p2] from the state the loop reached after [p1], when [p1] ended by
    a timeout; when the loop stopped inside [p1], the polls of [p2] play no
    part. *)
Theorem consume_app (p1 p2 : list poll_event) (st : state) :
  consume float threshold (p1 ++ p2) st
  = match while_running float threshold p1 st with
    | (st1, Break) => consume float threshold p2 st1
    | _ => consume float threshold p1 st
    end.
Proof.
  unfold consume; rewrite while_running_app.
  now destruct (while_running float threshold p1 st) as [st1 [|e|]].
Qed.

(** X9. When the loop ends by a timeout, every poll was handled: the table
    is the initial one followed by the rows of the value messages in the
    order of arrival, the output is what ingesting these rows one by one
    prints, the log holds one line per end-of-partition or unknown-topic
    message, and there is one commit per poll. *)
Theorem completed_run (polls : list poll_event) (st st' : state) :
  while_running float threshold polls st = (st', Break) ->
  df st' = df st ++ flat_map (received float) polls
  /\ stdout st' = stdout st
                  ++ outputs threshold (df st) (flat_map (received float) polls)
  /\ stderr st' = stderr st ++ flat_map logged polls
  /\ commits st' = (commits st + length polls)%nat
  /\ closed st' = closed st.
Proof.
  revert st; induction polls as [|p rest IH]; intros st H.
  - injection H as <-; cbn; now rewrite !app_nil_r, Nat.add_0_r.
  - destruct p as [[[| |]|body]|]; cbn [while_running] in H; try discriminate.
    + destruct (IH _ H) as (Hd & Ho & He & Hc & Hcl).
      cbn [df stdout stderr commits closed commit write_stderr] in *.
      cbn [flat_map received logged app length].
      repeat split; try assumption.
      * now rewrite He, <- app_assoc.
      * rewrite Hc; lia.
    + destruct (IH _ H) as (Hd & Ho & He & Hc & Hcl).
      cbn [df stdout stderr commits closed commit write_stderr] in *.
      cbn [flat_map received logged app length].
      repeat split; try assumption.
      * now rewrite He, <- app_assoc.
      * rewrite Hc; lia.
    + cbn [flat_map received logged app length].
      destruct (decode float body) as [s|e]; [|discriminate].
      destruct (row_of_stream s) as [r|]; [|discriminate].
      unfold ingest in H.
      destruct (IH _ H) as (Hd & Ho & He & Hc & Hcl).
      cbn [df stdout stderr commits closed commit] in *.
      cbn [app outputs].
      repeat split; try assumption.
      * now rewrite Hd, <- app_assoc.
      * now rewrite Ho, print_line_app, <- app_assoc.
      * rewrite Hc; lia.
Qed.

(** X10. Whatever ends the loop, each commit stands for one handled
    message: the number of commits made equals the number of rows appended
    plus the number of lines logged, so a message whose handling raised is
    never committed. The output grows by at most one line per appended row,
    and the consumer is not closed inside the loop. *)
Theorem commits_count_handled_messages (polls : list poll_event) (st : state) :
  let st' := fst (while_running float threshold polls st) in
  (commits st' + length (df st) + length (stderr st)
   = commits st + length (df st') + length (stderr st'))%nat
  /\ (commits st' <= commits st + length polls)%nat
  /\ (exists out, stdout st' = stdout st ++ out
                  /\ (length out + length (df st) <= length (df st'))%nat)
  /\ closed st' = closed st.
Proof.
  revert st; induction polls as [|p rest IH]; intros st; cbn zeta.
  - cbn; repeat split; try lia. exists []; cbn; now rewrite app_nil_r.
  - destruct p as [[[| |]|body]|]; cbn [while_running].
    + destruct (IH (commit (write_stderr ReachedEnd st))) as (H1 & H2 & (out & H3 & H4) & H5).
      cbn [df stdout stderr commits closed commit write_stderr] in *.
      rewrite length_app in H1; cbn [length] in *.
      repeat split; try lia; [|assumption]. now exists out.
    + destruct (IH (commit (write_stderr TopicUnknown st))) as (H1 & H2 & (out & H3 & H4) & H5).
      cbn [df stdout stderr commits closed commit write_stderr] in *.
      rewrite length_app in H1; cbn [length] in *.
      repeat split; try lia; [|assumption]. now exists out.
    + cbn; repeat split; try lia. exists []; cbn; now rewrite app_nil_r.
    + destruct (decode float body) as [s|e];
        [|cbn; repeat split; try lia; exists []; cbn; now rewrite app_nil_r].
      destruct (row_of_stream s) as [r|];
        [|cbn; repeat split; try lia; exists []; cbn; now rewrite app_nil_r].
      unfold ingest.
      match goal with
      | |- context [while_running _ _ rest ?s'] =>
          destruct (IH s') as (H1 & H2 & (out & H3 & H4) & H5)
      end.
      cbn [df stdout stderr commits closed commit] in *.
      rewrite length_app in H1, H4; cbn [length] in *.
      repeat split; try lia; [|assumption].
      exists (print_line (event_notification (df st ++ [r]) threshold) [] ++ out).
      split; [now rewrite H3, print_line_app, <- app_assoc|].
      rewrite length_app.
      assert (Hp : (length (print_line (event_notification (df st ++ [r]) threshold) [])
                    <= 1)%nat)
        by (destruct (event_notification (df st ++ [r]) threshold); cbn; lia).
      lia.
    + cbn; repeat split; try lia. exists []; cbn; now rewrite app_nil_r.
Qed.

(** X11. After polls that were all handled, a [KeyboardInterrupt] ends the
    cell as a timeout does, without an error, and a Kafka error other than
    end-of-partition or unknown-topic leaves the cell as an uncaught
    [KafkaException]. In each case the consumer is closed, the table and
    the output are those reached before, and the later polls are not
    consumed. *)
Theorem how_the_cell_stops (p1 p2 : list poll_event) (st st1 : state) :
  while_running float threshold p1 st = (st1, Break) ->
  consume float threshold p1 st = (close st1, Completed)
  /\ consume float threshold (p1 ++ Interrupt :: p2) st = (close st1, Completed)
  /\ consume float threshold (p1 ++ Polled (ErrorMessage OtherKafkaError) :: p2) st
     = (close st1, Uncaught KafkaException).
Proof.
  intros H; unfold consume; rewrite !while_running_app, H.
  repeat split.
Qed.
End LoopFacts.

Lemma completed_run_witness :
  df (fst (while_running decimal_float pm_threshold notebook_polls initial))
  = notebook_rows.
Proof.
  destruct (completed_run decimal_float pm_threshold notebook_polls initial
              (mkState notebook_rows
                 [ Safe box1 "2022-01-23T15:00:00.000Z";
                   Safe box1 "2022-01-24T16:00:00.000Z";
                   Warning box1 "2022-01-25T17:00:00.000Z" (Num 25.88) ]
                 [] 5 false))
    as (Hd & _).
  - now vm_compute.
  - reflexivity.
Defined.

Lemma how_the_cell_stops_witness :
  consume decimal_float pm_threshold (notebook_polls ++ Interrupt :: [nan_poll]) initial
  = (mkState notebook_rows
       [ Safe box1 "2022-01-23T15:00:00.000Z";
         Safe box1 "2022-01-24T16:00:00.000Z";
         Warning box1 "2022-01-25T17:00:00.000Z" (Num 25.88) ]
       [] 5 true,
     Completed).
Proof.
  apply (how_the_cell_stops decimal_float pm_threshold notebook_polls [nan_poll]
           initial
           (mkState notebook_rows
              [ Safe box1 "2022-01-23T15:00:00.000Z";
                Safe box1 "2022-01-24T16:00:00.000Z";
                Warning box1 "2022-01-25T17:00:00.000Z" (Num 25.88) ]
              [] 5 false)).
  now vm_compute.
Defined.

(** * Further properties of decoding *)

Section ParseFacts.
Variable float : string -> option fval.

Lemma parse_first_entry (k : string) (v : json) (rest : list (string * json)) :
  parse float (JObj ((k, v) :: rest))
  = (la <- item v 0 ;;
     lo <- item v 1 ;;
     d <- item v 2 ;;
     x <- float_of_key float k ;;
     b <- item v 3 ;;
     Ok (Stream.mk la lo d x b)).
Proof. unfold parse; cbn. now rewrite String.eqb_refl. Qed.

(** X12. [parse] succeeds exactly on an object whose first key is a float
    literal and whose first value is a list of at least four elements, or a
    string of at least four characters: the elements after the fourth and
    the other entries are ignored, and a string yields its first four
    characters as coordinates, day and box id. *)
Theorem parse_succeeds_iff (input : json) (s : Stream.t) :
  parse float input = Ok s
  <-> exists k v rest x,
        input = JObj ((k, v) :: rest) /\ float k = Some x
        /\ ((exists a b c d more,
               v = JArr (a :: b :: c :: d :: more) /\ s = Stream.mk a b c x d)
            \/ (exists c0 c1 c2 c3 more,
                  v = JStr (String c0 (String c1 (String c2 (String c3 more))))
                  /\ s = Stream.mk (JStr (String c0 EmptyString))
                                   (JStr (String c1 EmptyString))
                                   (JStr (String c2 EmptyString)) x
                                   (JStr (String c3 EmptyString)))).
Proof.
  split.
  - destruct input as [| | | | |entries]; try discriminate.
    destruct entries as [|[k v] rest]; [discriminate|].
    rewrite parse_first_entry; unfold float_of_key.
    destruct v as [| | |str|items|]; try discriminate.
    + destruct str as [|c0 [|c1 [|c2 [|c3 more]]]]; cbn; try discriminate;
        destruct (float k) as [x|] eqn:Hx; cbn; try discriminate.
      intros [= <-]; eexists k, _, rest, x.
      split; [reflexivity|]. split; [exact Hx|].
      right; now exists c0, c1, c2, c3, more.
    + destruct items as [|a [|b [|c [|d more]]]]; cbn; try discriminate;
        destruct (float k) as [x|] eqn:Hx; cbn; try discriminate.
      intros [= <-]; eexists k, _, rest, x.
      split; [reflexivity|]. split; [exact Hx|].
      left; now exists a, b, c, d, more.
  - intros (k & v & rest & x & -> & Hx & [(a & b & c & d & more & -> & ->)
                                         |(c0 & c1 & c2 & c3 & more & -> & ->)]);
      rewrite parse_first_entry; unfold float_of_key; cbn; now rewrite Hx.
Qed.

(** X13. Which exception [parse] raises. A message that is not an object
    raises [AttributeError], the empty object [IndexError]. For a first
    value that is a list: with fewer than three elements [IndexError],
    whatever the key; with three or more elements and a key that is not a
    float literal [ValueError], even when the fourth element is missing;
    with exactly three elements and a float key [IndexError]. A first value
    that is null, a boolean or a number raises [TypeError], an object
    [KeyError]. No other exception than these five is ever raised. *)
Theorem parse_errors :
  (forall input, (forall entries, input <> JObj entries) ->
                 parse float input = Raise AttributeError)
  /\ parse float (JObj []) = Raise IndexError
  /\ (forall k items rest, (length items < 3)%nat ->
        parse float (JObj ((k, JArr items) :: rest)) = Raise IndexError)
  /\ (forall k items rest, (3 <= length items)%nat -> float k = None ->
        parse float (JObj ((k, JArr items) :: rest)) = Raise ValueError)
  /\ (forall k items rest, length items = 3%nat -> float k <> None ->
        parse float (JObj ((k, JArr items) :: rest)) = Raise IndexError)
  /\ (forall k v rest, v = JNull \/ (exists b, v = JBool b) \/ (exists q, v = JNum q) ->
        parse float (JObj ((k, v) :: rest)) = Raise TypeError)
  /\ (forall k entries rest,
        parse float (JObj ((k, JObj entries) :: rest)) = Raise KeyError)
  /\ (forall input e, parse float input = Raise e ->
        e = AttributeError \/ e = IndexError \/ e = ValueError
        \/ e = TypeError \/ e = KeyError).
Proof.
  split; [|split; [|split; [|split; [|split; [|split; [|split]]]]]].
  - intros input H; destruct input; try reflexivity. now elim (H entries).
  - reflexivity.
  - intros k items rest Hl; rewrite parse_first_entry.
    destruct items as [|a [|b [|c t]]]; cbn in *; try reflexivity; lia.
  - intros k items rest Hl Hk; rewrite parse_first_entry; unfold float_of_key.
    destruct items as [|a [|b [|c t]]]; cbn in *; try lia. now rewrite Hk.
  - intros k items rest Hl Hk; rewrite parse_first_entry; unfold float_of_key.
    destruct items as [|a [|b [|c [|d t]]]]; try discriminate Hl.
    cbn; destruct (float k); [reflexivity | now elim Hk].
  - intros k v rest [->|[[b ->]|[q ->]]]; now rewrite parse_first_entry.
  - intros k entries rest; now rewrite parse_first_entry.
  - intros input e H.
    destruct input as [| | | | |entries]; try (injection H as <-; tauto).
    destruct entries as [|[k v] rest]; [injection H as <-; tauto|].
    rewrite parse_first_entry in H; unfold float_of_key in H.
    destruct v as [| | |str|items|]; try (injection H as <-; tauto).
    + destruct str as [|c0 [|c1 [|c2 [|c3 more]]]]; cbn in H;
        try (injection H as <-; tauto);
        destruct (float k); cbn in H; try discriminate; injection H as <-; tauto.
    + destruct items as [|a [|b [|c [|d more]]]]; cbn in H;
        try (injection H as <-; tauto);
        destruct (float k); cbn in H; try discriminate; injection H as <-; tauto.
Qed.
End ParseFacts.

Lemma parse_succeeds_iff_witness :
  exists x, decimal_float "12.757133" = Some x
            /\ parse decimal_float good_message
               = Ok (Stream.mk (JNum 51.956168) (JNum 7.651169)
                               (JStr "2022-01-23T15:00:00.000Z") x (JStr box1)).
Proof.
  exists (Num 12.757133); split; [reflexivity|].
  apply (proj2 (parse_succeeds_iff decimal_float good_message _)).
  exists "12.757133"%string,
         (JArr [JNum 51.956168; JNum 7.651169;
                JStr "2022-01-23T15:00:00.000Z"; JStr box1]),
         [], (Num 12.757133).
  split; [reflexivity|]. split; [reflexivity|].
  left; now exists (JNum 51.956168), (JNum 7.651169),
                   (JStr "2022-01-23T15:00:00.000Z"), (JStr box1), [].
Defined.

Lemma parse_errors_witness :
  parse decimal_float
    (JObj [("PM2.5"%string,
            JArr [JNum 51.956168; JNum 7.651169; JStr "2022-01-23T15:00:00.000Z"])])
  = Raise ValueError.
Proof.
  apply (proj1 (proj2 (proj2 (proj2 (parse_errors decimal_float))))).
  - simpl; lia.
  - reflexivity.
Defined.

(** * Further properties of the sensor map *)

Lemma leb_refl (s : string) : String.leb s s = true.
Proof. destruct (String.leb_total s s); assumption. Qed.

Lemma leb_trans (a b c : string) :
  String.leb a b = true -> String.leb b c = true -> String.leb a c = true.
Proof.
  unfold String.leb; intros Hab Hbc.
  destruct (String.compare a b) eqn:Eab; try discriminate;
    destruct (String.compare b c) eqn:Ebc; try discriminate.
  - apply String.compare_eq_iff in Eab; subst. now rewrite Ebc.
  - apply String.compare_eq_iff in Eab; subst. now rewrite Ebc.
  - apply String.compare_eq_iff in Ebc; subst. now rewrite Eab.
  - apply OrderedTypeEx.String_as_OT.cmp_lt in Eab, Ebc.
    pose proof (OrderedTypeEx.String_as_OT.lt_trans _ _ _ Eab Ebc) as H.
    apply OrderedTypeEx.String_as_OT.cmp_lt in H.
    unfold OrderedTypeEx.String_as_OT.cmp in H. now rewrite H.
Qed.

Lemma max_string_cases (a b : string) :
  (max_string a b = a \/ max_string a b = b)
  /\ String.leb a (max_string a b) = true
  /\ String.leb b (max_string a b) = true.
Proof.
  unfold max_string; destruct (String.leb a b) eqn:E.
  - split; [now right|]. split; [exact E | apply leb_refl].
  - split; [now left|]. split; [apply leb_refl|].
    destruct (String.leb_total a b); congruence.
Qed.

Lemma fold_max_string (t : list string) (x : string) :
  let m := fold_left max_string t x in
  (m = x \/ In m t) /\ String.leb x m = true
  /\ forall y, In y t -> String.leb y m = true.
Proof.
  revert x; induction t as [|z t IH]; intros x; cbn [fold_left In].
  - split; [now left|]. split; [apply leb_refl | intros y []].
  - destruct (IH (max_string x z)) as ([Hm|Hm] & Hx & Ht);
      destruct (max_string_cases x z) as ([Hc|Hc] & Hxz & Hzz).
    + repeat split; [left; congruence | eauto using leb_trans |].
      intros y [<-|Hy]; eauto using leb_trans.
    + repeat split; [right; left; congruence | eauto using leb_trans |].
      intros y [<-|Hy]; eauto using leb_trans.
    + repeat split; [tauto | eauto using leb_trans |].
      intros y [<-|Hy]; eauto using leb_trans.
    + repeat split; [tauto | eauto using leb_trans |].
      intros y [<-|Hy]; eauto using leb_trans.
Qed.

Lemma series_max_spec (l : list string) :
  match series_max l with
  | Some d => In d l /\ forall y, In y l -> String.leb y d = true
  | None => l = []
  end.
Proof.
  destruct l as [|x t]; cbn; [reflexivity|].
  destruct (fold_max_string t x) as (Hm & Hx & Ht).
  split; [destruct Hm as [Hm|Hm]; [left; congruence | now right]|].
  intros y [<-|Hy]; auto.
Qed.

Lemma valid_days (df : DataFrame) (d : string) :
  In d (map Gdf.day (valid_boxes (to_gdf df)))
  <-> exists r, In r df /\ isnan (value r) = false /\ day r = d.
Proof.
  unfold valid_boxes; rewrite in_map_iff; split.
  - intros (g & <- & Hg).
    apply filter_In in Hg as [Hg Hv].
    apply in_to_gdf in Hg as (r & Hr & ->); cbn in *.
    exists r; repeat split; auto. now destruct (isnan (value r)).
  - intros (r & Hr & Hv & <-).
    exists (Gdf.mk (value r) (day r) (boxId r) (point_of r)
                   (if isnan (value r) then false else true)).
    split; [reflexivity|].
    apply filter_In; split; [apply in_to_gdf; now exists r|].
    cbn; now rewrite Hv.
Qed.

(** X14. [recent_date] is the greatest day, in the order of strings, among
    the rows whose value is not NaN: it is the day of such a row and no such
    row has a later day; the days of NaN rows do not count. When every row
    is a NaN row there is no recent date and no sensor is active. *)
Theorem recent_date_is_latest_valid_day (df : DataFrame) :
  match recent_date (to_gdf df) with
  | Some d =>
      (exists r, In r df /\ isnan (value r) = false /\ day r = d)
      /\ (forall r, In r df -> isnan (value r) = false ->
                    String.leb (day r) d = true)
  | None =>
      (forall r, In r df -> isnan (value r) = true)
      /\ active_markers df = []
  end.
Proof.
  pose proof (series_max_spec (map Gdf.day (valid_boxes (to_gdf df)))) as H.
  unfold active_markers, active_boxes.
  unfold recent_date in *.
  destruct (series_max (map Gdf.day (valid_boxes (to_gdf df)))) as [d|].
  - destruct H as [Hin Hmax]; split.
    + now apply valid_days.
    + intros r Hr Hv; apply Hmax, valid_days; now exists r.
  - split.
    + intros r Hr; destruct (isnan (value r)) eqn:E; [reflexivity|].
      assert (Hd : In (day r) (map Gdf.day (valid_boxes (to_gdf df))))
        by (apply valid_days; now exists r).
      rewrite H in Hd; contradiction.
    + rewrite (filter_all_false (on_day None)) by reflexivity. reflexivity.
Qed.

(** [drop_duplicates] keeps a row exactly when no earlier row is of its
    class. *)
Lemma drop_duplicates_first {A : Type} (same : A -> A -> bool) (l : list A) (y : A) :
  In y (drop_duplicates same l)
  <-> exists l1 l2, l = l1 ++ y :: l2 /\ forall z, In z l1 -> same z y = false.
Proof.
  induction l as [|x t IH]; cbn [drop_duplicates].
  - split; [intros [] | intros ([|? ?] & ? & ? & _); discriminate].
  - split.
    + intros [->|H].
      * exists [], t; split; [reflexivity | intros z []].
      * apply filter_In in H as [H Hx].
        apply IH in H as (l1 & l2 & -> & Hl1).
        exists (x :: l1), l2; split; [reflexivity|].
        intros z [<-|Hz]; [now apply negb_true_iff in Hx | auto].
    + intros ([|x' l1] & l2 & E & Hl1); injection E as -> ->; [now left|].
      right; apply filter_In; split.
      * apply IH; exists l1, l2; split; [reflexivity|].
        intros z Hz; apply Hl1; now right.
      * apply negb_true_iff, Hl1; now left.
Qed.

Lemma filter_eq_split {A : Type} (p : A -> bool) (l l1 l2 : list A) (y : A) :
  filter p l = l1 ++ y :: l2 ->
  exists m1 m2, l = m1 ++ y :: m2 /\ filter p m1 = l1 /\ p y = true.
Proof.
  revert l1; induction l as [|x t IH]; intros l1; cbn [filter].
  - destruct l1; discriminate.
  - destruct (p x) eqn:E.
    + destruct l1 as [|x' l1]; cbn; intros [= -> H].
      * exists [], t; auto.
      * destruct (IH _ H) as (m1 & m2 & -> & <- & Hy).
        exists (x' :: m1), m2; cbn; rewrite E; auto.
    + intros H; destruct (IH _ H) as (m1 & m2 & -> & <- & Hy).
      exists (x :: m1), m2; cbn; rewrite E; auto.
Qed.

Lemma on_day_recent (df : DataFrame) (r : row) :
  on_day (recent_date (to_gdf df)) (gdf_row r) = true <-> recent df r.
Proof.
  unfold recent, on_day; destruct (recent_date (to_gdf df)) as [d|]; cbn.
  - rewrite String.eqb_eq; split; congruence.
  - split; discriminate.
Qed.

(** The rows of [active_boxes] before the geometry is selected: the rows
    dated at the recent date that are the first such row of their box id. *)
Lemma active_frame_rows (df : DataFrame) (g : Gdf.t) :
  In g (active_frame (to_gdf df))
  <-> exists pre r post,
        df = pre ++ r :: post /\ g = gdf_row r /\ recent df r
        /\ forall x, In x pre -> recent df x -> boxId x <> boxId r.
Proof.
  unfold active_frame; rewrite drop_duplicates_first; split.
  - intros (l1 & l2 & E & Hl1).
    apply filter_eq_split in E as (m1 & m2 & E & <- & Hg).
    unfold to_gdf in E; apply map_eq_app in E as (pre & tl & -> & <- & E).
    apply map_eq_cons in E as (r & post & -> & <- & _).
    exists pre, r, post; split; [reflexivity|]; split; [reflexivity|].
    split; [now apply on_day_recent|].
    intros x Hx Hrx Hb.
    assert (Hin : In (gdf_row x)
                     (filter (on_day (recent_date
                                        (map gdf_row (pre ++ r :: post))))
                             (map gdf_row pre))).
    { apply filter_In; split; [now apply in_map | now apply on_day_recent]. }
    apply Hl1 in Hin; cbn in Hin.
    apply String.eqb_neq in Hin; contradiction.
  - intros (pre & r & post & -> & -> & Hr & Hpre).
    exists (filter (on_day (recent_date (to_gdf (pre ++ r :: post))))
                   (map gdf_row pre)),
           (filter (on_day (recent_date (to_gdf (pre ++ r :: post))))
                   (map gdf_row post)).
    split.
    + unfold to_gdf at 2; fold gdf_row.
      rewrite map_app, filter_app; cbn [map filter].
      now rewrite (proj2 (on_day_recent _ r) Hr).
    + intros z Hz; apply filter_In in Hz as [Hz Hd].
      apply in_map_iff in Hz as (x & <- & Hx).
      cbn; apply String.eqb_neq, Hpre; [exact Hx | now apply on_day_recent].
Qed.

(** X15. A location is an active marker exactly when the table has a row at
    that location that is dated at [recent_date] and is the first row of its
    box id with that date; whether the value of the row is NaN plays no
    part. *)
Theorem active_marker_iff (df : DataFrame) (k : LocationKey) :
  shown k (active_markers df) = true
  <-> exists pre r post,
        df = pre ++ r :: post
        /\ recent df r
        /\ (forall x, In x pre -> recent df x -> boxId x <> boxId r)
        /\ key_eqb k (key_of r) = true.
Proof.
  unfold active_markers; rewrite shown_markers.
  change (active_boxes (to_gdf df)) with (map Gdf.geometry (active_frame (to_gdf df))).
  split.
  - intros (p & Hp & Hk).
    apply in_map_iff in Hp as (g & <- & Hg).
    apply active_frame_rows in Hg as (pre & r & post & E & -> & Hr & Hpre).
    exists pre, r, post; repeat split; auto.
    now rewrite key_point.
  - intros (pre & r & post & E & Hr & Hpre & Hk).
    exists (point_of r); split; [|now rewrite <- key_point].
    apply in_map_iff; exists (gdf_row r); split; [reflexivity|].
    apply active_frame_rows; now exists pre, r, post.
Qed.

Lemma ForallOrdPairs_filter {A : Type} (R : A -> A -> Prop) (p : A -> bool) (l : list A) :
  ForallOrdPairs R l -> ForallOrdPairs R (filter p l).
Proof.
  induction 1 as [|x l Hx Hl IH]; cbn; [constructor|].
  destruct (p x); [|exact IH].
  constructor; [|exact IH].
  apply Forall_forall; intros y Hy; apply filter_In in Hy as [Hy _].
  revert y Hy; now apply Forall_forall.
Qed.

Lemma drop_duplicates_distinct {A : Type} (same : A -> A -> bool) (l : list A) :
  ForallOrdPairs (fun a b => same a b = false) (drop_duplicates same l).
Proof.
  induction l as [|x t IH]; cbn; constructor.
  - apply Forall_forall; intros y Hy; apply filter_In in Hy as [_ Hy].
    now apply negb_true_iff.
  - now apply ForallOrdPairs_filter.
Qed.

Lemma ForallOrdPairs_map {A B : Type} (R : B -> B -> Prop) (f : A -> B) (l : list A) :
  ForallOrdPairs (fun a b => R (f a) (f b)) l -> ForallOrdPairs R (map f l).
Proof.
  induction 1 as [|x l Hx Hl IH]; cbn; constructor; [|exact IH].
  apply Forall_forall; intros y Hy; apply in_map_iff in Hy as (a & <- & Ha).
  revert a Ha; now apply Forall_forall.
Qed.

Lemma ForallOrdPairs_weaken {A : Type} (R S : A -> A -> Prop) (l : list A) :
  (forall a b, R a b -> S a b) -> ForallOrdPairs R l -> ForallOrdPairs S l.
Proof.
  intros H; induction 1 as [|x l Hx Hl IH]; constructor; [|exact IH].
  eapply Forall_impl; [|exact Hx]. intros b; apply H.
Qed.

Lemma ForallOrdPairs_NoDup {A : Type} (l : list A) :
  ForallOrdPairs (fun a b => a <> b) l -> NoDup l.
Proof.
  induction 1 as [|x l Hx Hl IH]; constructor; [|exact IH].
  intros Hin; rewrite Forall_forall in Hx. now apply (Hx x Hin).
Qed.

(** X16. The active markers are the geometries of rows with pairwise
    different box ids: a box id gives at most one active marker, and there
    are at most as many active markers as rows dated at [recent_date]. *)
Theorem markers_are_deduplicated (df : DataFrame) :
  NoDup (map Gdf.boxId (active_frame (to_gdf df)))
  /\ active_markers df = markers (map Gdf.geometry (active_frame (to_gdf df)))
  /\ (length (active_markers df)
      <= length (filter (fun r => on_day (recent_date (to_gdf df)) (gdf_row r)) df))%nat.
Proof.
  split; [|split].
  - apply ForallOrdPairs_NoDup, ForallOrdPairs_map.
    eapply ForallOrdPairs_weaken;
      [|apply (drop_duplicates_distinct
                 (fun a b => String.eqb (Gdf.boxId a) (Gdf.boxId b)))].
    intros a b H; now apply String.eqb_neq.
  - reflexivity.
  - unfold active_markers, markers, active_boxes; rewrite !length_map.
    assert (G : forall (A : Type) (same : A -> A -> bool) (l : list A),
               (length (drop_duplicates same l) <= length l)%nat).
    { intros A same l; induction l as [|x t IH]; cbn; [lia|].
      pose proof (filter_length_le (fun y => negb (same x y))
                    (drop_duplicates same t)); lia. }
    etransitivity; [apply G|].
    unfold to_gdf at 2; fold gdf_row.
    clear G; generalize (on_day (recent_date (to_gdf df))) as p; intros p.
    induction df as [|x t IH]; cbn; [lia|].
    destruct (p (gdf_row x)); cbn; lia.
Qed.

(** X18. A location that has an inactive marker keeps it when more rows are
    appended: a sensor that once sent a reading without a value stays on
    the inactive layer, whatever it sends later. *)
Theorem inactive_is_permanent (df more : DataFrame) (k : LocationKey) :
  shown k (inactive_markers df) = true ->
  shown k (inactive_markers (df ++ more)) = true.
Proof.
  rewrite !inactive_iff_nan_reading.
  intros (r & Hr & Hnan & Hk); exists r; split; [|now split].
  apply in_or_app; now left.
Qed.

Lemma inactive_is_permanent_witness :
  shown (51.956168, 7.651169)
        (inactive_markers
           (nan_on_recent_date ++ [reading1 (Num 6.322550) "2022-01-23T15:00:00.000Z"]))
  = true.
Proof.
  apply (inactive_is_permanent nan_on_recent_date
           [reading1 (Num 6.322550) "2022-01-23T15:00:00.000Z"]).
  reflexivity.
Defined.

Lemma recent_date_new_day (df : DataFrame) (r : row) :
  isnan (value r) = false ->
  (forall x, In x df -> isnan (value x) = false -> String.leb (day x) (day r) = true) ->
  recent_date (to_gdf (df ++ [r])) = Some (day r).
Proof.
  intros Hv Hle.
  pose proof (series_max_spec (map Gdf.day (valid_boxes (to_gdf (df ++ [r]))))) as H.
  unfold recent_date.
  destruct (series_max _) as [d|].
  - destruct H as [Hin Hmax]; f_equal.
    apply String.leb_antisym.
    + apply valid_days in Hin as (x & Hx & Hxv & <-).
      apply in_app_or in Hx as [Hx|[<-|[]]]; [now apply Hle | apply leb_refl].
    + apply Hmax, valid_days; exists r; split; [|now split].
      apply in_or_app; right; now left.
  - assert (Hd : In (day r) (map Gdf.day (valid_boxes (to_gdf (df ++ [r]))))).
    { apply valid_days; exists r; split; [|now split].
      apply in_or_app; right; now left. }
    rewrite H in Hd; contradiction.
Qed.

(** X19. When a reading with a value arrives whose day is not the day of
    any row received before and not earlier than the day of any earlier row
    with a value, its location becomes the only active marker: every other
    sensor leaves the active layer until it reports for that day too. *)
Theorem new_day_resets_active (df : DataFrame) (r : row) :
  isnan (value r) = false ->
  (forall x, In x df -> isnan (value x) = false -> String.leb (day x) (day r) = true) ->
  (forall x, In x df -> day x <> day r) ->
  active_markers (df ++ [r]) = [key_of r].
Proof.
  intros Hv Hle Hne.
  unfold active_markers, active_boxes.
  rewrite recent_date_new_day by assumption.
  unfold to_gdf; rewrite map_app, filter_app.
  rewrite (filter_all_false (on_day (Some (day r)))).
  - cbn; now rewrite String.eqb_refl.
  - intros g Hg; apply in_map_iff in Hg as (x & <- & Hx); cbn.
    apply String.eqb_neq; now apply Hne.
Qed.

Lemma new_day_resets_active_witness :
  active_markers two_sensors = [(51.964220, 7.645220)].
Proof.
  apply (new_day_resets_active [reading1 (Num 4.190406) "2022-01-21T13:00:00.000Z"]
           (reading2 (Num 26.25) "2022-01-22T14:00:00.000Z")).
  - reflexivity.
  - intros x [<-|[]] _; reflexivity.
  - intros x [<-|[]]; discriminate.
Defined.
